(** * The offline runner of [src/game.js]: a shallow embedding and its properties

    The script is one closure over a handful of mutable variables, driven by
    DOM events and by the animation-frame callback.  It is embedded here by
    explicit state passing: the closure's variables are the fields of
    [Game.t], every function of the script is a function on [Game.t], and
    the browser's event dispatch is the step function [handle].

    Numbers.  JavaScript numbers are IEEE doubles.  The finite ones are
    modelled as exact rationals ([Q]): rounding and overflow are left out.
    Values that need not be finite numbers appear in the script in three
    places only, each behind an explicit test ([Number.isFinite]), and are
    given the type [jsval] there: the two bounding-box fields of a
    [TextMetrics], the height of the bounding client rectangle, and the
    result of [Number(localStorage.getItem(..))].  [TextMetrics.width],
    [clientWidth], [devicePixelRatio] and the timestamps are WebIDL
    [double]/[long] attributes, finite by their type.

    Browser services the script calls are the fields of the class
    [Browser]: [ctx.measureText], [Math.random] (the n-th draw of the page),
    [Math.sin], the string-to-number conversion, and the reduced-motion
    media query.  What the script only writes and never reads back (pixels,
    [textContent] of the score elements, the canvas transform and CSS
    height) is not part of the state. *)

From Stdlib Require Import QArith Qminmax Qround Lqa ZArith Lia.
From Stdlib Require Import Bool List String Ascii DecimalString.
Import ListNotations.

Local Open Scope Q_scope.

(** ** JavaScript primitives *)

Module JS.

(** A value read from the browser where the script expects a number. *)
Inductive jsval : Type :=
| Num (q : Q)
| NaN
| PosInfinity
| NegInfinity
| Undefined.

(** [Number.isFinite(v)] *)
Definition Number_isFinite (v : jsval) : bool :=
  match v with
  | Num _ => true
  | _ => false
  end.

(** [a < b], [a > b], [a <= b], [a >= b] on finite numbers *)
Definition lt (a b : Q) : bool :=
  match a ?= b with Lt => true | _ => false end.
Definition gt (a b : Q) : bool := lt b a.
Definition le (a b : Q) : bool := Qle_bool a b.
Definition ge (a b : Q) : bool := Qle_bool b a.

(** [a || b] on finite numbers: [0] is the only falsy one *)
Definition or_else (a b : Q) : Q :=
  if Qeq_bool a 0 then b else a.

(** [Math.floor(x)] and [Math.round(x)] (halves go up) *)
Definition Math_floor (x : Q) : Z := Qfloor x.
Definition Math_round (x : Q) : Z := Qfloor (x + 0.5).

(** [Math.max] and [Math.min] of two and of three arguments *)
Definition Math_max (a b : Q) : Q := Qmax a b.
Definition Math_min (a b : Q) : Q := Qmin a b.
Definition Math_max3 (a b c : Q) : Q := Qmax (Qmax a b) c.

(** [String(n)] and [`${n}`] for an integer-valued number *)
Definition String_of_int (n : Z) : string :=
  NilZero.string_of_int (Z.to_int n).

(** The outcome of a call that may throw. *)
Inductive completion (A : Type) : Type :=
| Normal (a : A)
| Throw.
Arguments Normal {A} a.
Arguments Throw {A}.

End JS.
Import JS.

Infix "<?" := JS.lt : Q_scope.
Infix ">?" := JS.gt (at level 70) : Q_scope.
Infix ">=?" := JS.ge (at level 70) : Q_scope.

(** ** Data model *)

(** [{x, y, w, h}], the argument type of [rectsOverlap] *)
Module Rect.
Record t : Type := mk { x : Q; y : Q; w : Q; h : Q }.
End Rect.

(** What [ctx.measureText] returns, as far as the script reads it *)
Module TextMetrics.
Record t : Type := mk {
  width : Q;
  actualBoundingBoxAscent : jsval;
  actualBoundingBoxDescent : jsval
}.
End TextMetrics.

(** The object [measureEmoji] returns *)
Module Measure.
Record t : Type := mk { w : Q; h : Q; ascent : Q; descent : Q }.
End Measure.

Module Glyph.
Record t : Type := mk {
  emoji : string;
  size : Z;
  dx : Q;
  w : Q;
  h : Q
}.
End Glyph.

Module Obstacle.
Record t : Type := mk {
  x : Q;
  y : Q;
  w : Q;
  h : Q;
  glyphs : list Glyph.t
}.

(** An obstacle passed where a rectangle is expected *)
Definition rect (o : t) : Rect.t := Rect.mk (x o) (y o) (w o) (h o).

Definition set_x (v : Q) (o : t) : t := mk v (y o) (w o) (h o) (glyphs o).
End Obstacle.

Module Spark.
Record t : Type := mk { x : Q; y : Q; r : Q; spd : Q }.
End Spark.

Module Player.
Record t : Type := mk {
  x : Q;
  y : Q;
  vy : Q;
  onGround : bool;
  fontPx : Z;
  w : Q;
  h : Q
}.

Definition set_y (v : Q) (p : t) : t :=
  mk (x p) v (vy p) (onGround p) (fontPx p) (w p) (h p).
Definition set_vy (v : Q) (p : t) : t :=
  mk (x p) (y p) v (onGround p) (fontPx p) (w p) (h p).
Definition set_onGround (v : bool) (p : t) : t :=
  mk (x p) (y p) (vy p) v (fontPx p) (w p) (h p).
Definition set_w (v : Q) (p : t) : t :=
  mk (x p) (y p) (vy p) (onGround p) (fontPx p) v (h p).
Definition set_h (v : Q) (p : t) : t :=
  mk (x p) (y p) (vy p) (onGround p) (fontPx p) (w p) v.

(** [jump()]: only from the ground *)
Definition jump (p : t) : t :=
  if negb (onGround p) then p
  else set_onGround false (set_vy (-460) p).

(** The literal [{ x: player.x, y: player.y, w: player.w, h: player.h }] *)
Definition rect (p : t) : Rect.t := Rect.mk (x p) (y p) (w p) (h p).
End Player.

(** The canvas element: two layout readings and its bitmap size *)
Module Canvas.
Record t : Type := mk {
  clientWidth : Q;
  rectHeight : jsval;   (* getBoundingClientRect?.().height *)
  width : Q;
  height : Q
}.
End Canvas.

(** [localStorage]: its entries, and whether access throws *)
Module Storage.
Record t : Type := mk {
  entries : list (string * string);
  denied : bool;   (* every access throws *)
  full : bool      (* writes throw *)
}.

Fixpoint lookup (k : string) (l : list (string * string)) : option string :=
  match l with
  | [] => None
  | (k', v) :: l' => if String.eqb k k' then Some v else lookup k l'
  end.

Fixpoint store (k v : string) (l : list (string * string))
  : list (string * string) :=
  match l with
  | [] => [(k, v)]
  | (k', v') :: l' =>
      if String.eqb k k' then (k, v) :: l' else (k', v') :: store k v l'
  end.

(** [getItem(k)]: the value, [None] for JavaScript's [null] *)
Definition getItem (k : string) (s : t) : completion (option string) :=
  if denied s then Throw else Normal (lookup k (entries s)).

(** [setItem(k, v)] *)
Definition setItem (k v : string) (s : t) : completion t :=
  if denied s || full s then Throw
  else Normal (mk (store k v (entries s)) (denied s) (full s)).
End Storage.

(** The variables of the closure, with the browser objects it mutates *)
Module Game.
Record t : Type := mk {
  canvas : Canvas.t;   (* the canvas element *)
  ctx_font : string;   (* ctx.font *)
  lastCssH : Q;
  player : Player.t;
  obstacles : list Obstacle.t;
  sparks : list Spark.t;
  running : bool;
  started : bool;
  score : Q;
  best : Q;
  speed : Q;
  spawnTimer : Q;
  last : Q;   (* timestamp of the previous frame *)
  localStorage : Storage.t;
  draws : nat   (* calls of Math.random so far *)
}.

Definition set_canvas (v : Canvas.t) (g : t) : t :=
  mk v (ctx_font g) (lastCssH g) (player g) (obstacles g) (sparks g)
    (running g) (started g) (score g) (best g) (speed g) (spawnTimer g)
    (last g) (localStorage g) (draws g).
Definition set_ctx_font (v : string) (g : t) : t :=
  mk (canvas g) v (lastCssH g) (player g) (obstacles g) (sparks g)
    (running g) (started g) (score g) (best g) (speed g) (spawnTimer g)
    (last g) (localStorage g) (draws g).
Definition set_lastCssH (v : Q) (g : t) : t :=
  mk (canvas g) (ctx_font g) v (player g) (obstacles g) (sparks g)
    (running g) (started g) (score g) (best g) (speed g) (spawnTimer g)
    (last g) (localStorage g) (draws g).
Definition set_player (v : Player.t) (g : t) : t :=
  mk (canvas g) (ctx_font g) (lastCssH g) v (obstacles g) (sparks g)
    (running g) (started g) (score g) (best g) (speed g) (spawnTimer g)
    (last g) (localStorage g) (draws g).
Definition set_obstacles (v : list Obstacle.t) (g : t) : t :=
  mk (canvas g) (ctx_font g) (lastCssH g) (player g) v (sparks g)
    (running g) (started g) (score g) (best g) (speed g) (spawnTimer g)
    (last g) (localStorage g) (draws g).
Definition set_sparks (v : list Spark.t) (g : t) : t :=
  mk (canvas g) (ctx_font g) (lastCssH g) (player g) (obstacles g) v
    (running g) (started g) (score g) (best g) (speed g) (spawnTimer g)
    (last g) (localStorage g) (draws g).
Definition set_running (v : bool) (g : t) : t :=
  mk (canvas g) (ctx_font g) (lastCssH g) (player g) (obstacles g)
    (sparks g) v (started g) (score g) (best g) (speed g) (spawnTimer g)
    (last g) (localStorage g) (draws g).
Definition set_started (v : bool) (g : t) : t :=
  mk (canvas g) (ctx_font g) (lastCssH g) (player g) (obstacles g)
    (sparks g) (running g) v (score g) (best g) (speed g) (spawnTimer g)
    (last g) (localStorage g) (draws g).
Definition set_score (v : Q) (g : t) : t :=
  mk (canvas g) (ctx_font g) (lastCssH g) (player g) (obstacles g)
    (sparks g) (running g) (started g) v (best g) (speed g) (spawnTimer g)
    (last g) (localStorage g) (draws g).
Definition set_best (v : Q) (g : t) : t :=
  mk (canvas g) (ctx_font g) (lastCssH g) (player g) (obstacles g)
    (sparks g) (running g) (started g) (score g) v (speed g) (spawnTimer g)
    (last g) (localStorage g) (draws g).
Definition set_speed (v : Q) (g : t) : t :=
  mk (canvas g) (ctx_font g) (lastCssH g) (player g) (obstacles g)
    (sparks g) (running g) (started g) (score g) (best g) v (spawnTimer g)
    (last g) (localStorage g) (draws g).
Definition set_spawnTimer (v : Q) (g : t) : t :=
  mk (canvas g) (ctx_font g) (lastCssH g) (player g) (obstacles g)
    (sparks g) (running g) (started g) (score g) (best g) (speed g) v
    (last g) (localStorage g) (draws g).
Definition set_last (v : Q) (g : t) : t :=
  mk (canvas g) (ctx_font g) (lastCssH g) (player g) (obstacles g)
    (sparks g) (running g) (started g) (score g) (best g) (speed g)
    (spawnTimer g) v (localStorage g) (draws g).
Definition set_localStorage (v : Storage.t) (g : t) : t :=
  mk (canvas g) (ctx_font g) (lastCssH g) (player g) (obstacles g)
    (sparks g) (running g) (started g) (score g) (best g) (speed g)
    (spawnTimer g) (last g) v (draws g).
Definition set_draws (v : nat) (g : t) : t :=
  mk (canvas g) (ctx_font g) (lastCssH g) (player g) (obstacles g)
    (sparks g) (running g) (started g) (score g) (best g) (speed g)
    (spawnTimer g) (last g) (localStorage g) v.
End Game.

Infix "<=?" := JS.le : Q_scope.

(** ** The script *)

Definition dquote : string := String (ascii_of_nat 34) EmptyString.

Definition EMOJI_FONT_STACK : string :=
  (dquote ++ "Noto Color Emoji" ++ dquote ++ ","
   ++ dquote ++ "Apple Color Emoji" ++ dquote ++ ","
   ++ dquote ++ "Segoe UI Emoji" ++ dquote ++ ","
   ++ dquote ++ "Segoe UI Symbol" ++ dquote ++ ",sans-serif")%string.

Definition PLAYER_EMOJI_IDLE : string := "🙂".
Definition PLAYER_EMOJI_RUN : string := "😄".
Definition PLAYER_EMOJI_LOSE : string := "😞".
Definition CACTUS_EMOJI : string := "🌵".

Definition groundPad : Q := 22.
Definition storageKey : string := "sd_runner_best".

(** The object literal [player] of the script *)
Definition player0 : Player.t :=
  Player.mk 46 0 0 false 30 22 28.

(** [rectsOverlap(a, b)] *)
Definition rectsOverlap (a b : Rect.t) : bool :=
  (Rect.x a <? Rect.x b + Rect.w b)
  && (Rect.x a + Rect.w a >? Rect.x b)
  && (Rect.y a <? Rect.y b + Rect.h b)
  && (Rect.y a + Rect.h a >? Rect.y b).

(** The world speed the difficulty curve assigns to a score *)
Definition speedFor (score : Q) : Q :=
  Math_min 520 (260 + score * 0.9).

(** The frame delta [loop] computes from two timestamps (milliseconds) *)
Definition frameDt (now last : Q) : Q :=
  Math_min 0.033 (Math_max 0 ((now - last) / 1000)).

(** What the script asks of the browser. *)
Class Browser : Type := {
  (** [ctx.measureText(text)] under the font [ctx.font] *)
  measureText : string -> string -> TextMetrics.t;
  (** the value of the n-th call of [Math.random()], a number in [0, 1) *)
  Math_random : nat -> Q;
  Math_random_range : forall n, 0 <= Math_random n /\ Math_random n < 1;
  Math_sin : Q -> Q;
  (** [Number(s)] for a string [s] *)
  StringToNumber : string -> jsval;
  (** [window.matchMedia?.('(prefers-reduced-motion: reduce)')?.matches ?? false] *)
  prefersReducedMotion : bool
}.

Section Runner.

Context {browser : Browser}.

(** [Number(v)] for what [getItem] returns: [null] converts to [0] *)
Definition Number_ (v : option string) : jsval :=
  match v with
  | None => Num 0
  | Some s => StringToNumber s
  end.

(** [Math.random()] *)
Definition random (g : Game.t) : Q * Game.t :=
  (Math_random (Game.draws g), Game.set_draws (S (Game.draws g)) g).

(** [measureEmoji(emoji, fontPx)] *)
Definition measureEmoji (emoji : string) (fontPx : Z) (g : Game.t)
  : Measure.t * Game.t :=
  let prevFont := Game.ctx_font g in
  let g := Game.set_ctx_font
             (String_of_int fontPx ++ "px " ++ EMOJI_FONT_STACK)%string g in
  let m := measureText (Game.ctx_font g) emoji in
  let g := Game.set_ctx_font prevFont g in
  let ascent :=   (* Number.isFinite(..) ? .. : fontPx * 0.78 *)
    match TextMetrics.actualBoundingBoxAscent m with
    | Num a => a
    | _ => inject_Z fontPx * 0.78
    end in
  let descent :=
    match TextMetrics.actualBoundingBoxDescent m with
    | Num d => d
    | _ => inject_Z fontPx * 0.22
    end in
  let w := Math_max 1 (or_else (TextMetrics.width m) (inject_Z fontPx)) in
  let h := Math_max 1 (ascent + descent) in
  (Measure.mk w h ascent descent, g).

(** [fitCanvas()], with the value of [window.devicePixelRatio].  Assigning
    the bitmap size of a canvas resets its context, the font included. *)
Definition fitCanvas (devicePixelRatio : Q) (g : Game.t) : Game.t :=
  let c := Game.canvas g in
  let dpr := Math_max 1 (Math_min 2 (or_else devicePixelRatio 1)) in
  let cssW := or_else (Canvas.clientWidth c) (Canvas.width c) in
  let cssH := inject_Z (Math_round (cssW * (200 / 640))) in
  let g := Game.set_lastCssH cssH g in
  let g :=
    Game.set_canvas
      (Canvas.mk (Canvas.clientWidth c) (Canvas.rectHeight c)
         (inject_Z (Math_floor (cssW * dpr)))
         (inject_Z (Math_floor (cssH * dpr)))) g in
  Game.set_ctx_font "10px sans-serif" g.

(** [world.w()] and [world.h()] *)
Definition world_w (g : Game.t) : Q :=
  or_else (Canvas.clientWidth (Game.canvas g)) 640.

Definition world_h (g : Game.t) : Q :=
  match Canvas.rectHeight (Game.canvas g) with
  | Num rectH =>
      if rectH >? 0 then rectH else or_else (Game.lastCssH g) 200
  | _ => or_else (Game.lastCssH g) 200
  end.

(** [groundY()] *)
Definition groundY (g : Game.t) : Q := world_h g - groundPad.

(** The [try]/[catch] that reads the saved best score when the script loads *)
Definition loadBest (g : Game.t) : Game.t :=
  match Storage.getItem storageKey (Game.localStorage g) with
  | Normal item =>
      match Number_ item with
      | Num v => Game.set_best v g
      | _ => Game.set_best 0 g
      end
  | Throw => Game.set_best 0 g
  end.

(** [reset()] *)
Definition reset (g : Game.t) : Game.t :=
  let g := Game.set_obstacles [] g in
  let g := Game.set_sparks [] g in
  let g := Game.set_running true g in
  let g := Game.set_started false g in
  let g := Game.set_score 0 g in
  let g := Game.set_speed 260 g in
  let g := Game.set_spawnTimer 0 g in
  let fontPx := Player.fontPx (Game.player g) in
  let '(mIdle, g) := measureEmoji PLAYER_EMOJI_IDLE fontPx g in
  let '(mRun, g) := measureEmoji PLAYER_EMOJI_RUN fontPx g in
  let '(mLose, g) := measureEmoji PLAYER_EMOJI_LOSE fontPx g in
  let maxW := Math_max3 (Measure.w mIdle) (Measure.w mRun) (Measure.w mLose) in
  let maxH := Math_max3 (Measure.h mIdle) (Measure.h mRun) (Measure.h mLose) in
  let p := Game.player g in
  let p := Player.set_w (Math_max 18 (maxW * 0.92)) p in
  let p := Player.set_h (Math_max 22 (maxH * 0.92)) p in
  let p := Player.set_vy 0 p in
  let p := Player.set_onGround true p in
  let p := Player.set_y (groundY g - Player.h p) p in
  Game.set_player p g.

(** The body of the loop of [addSpark] *)
Fixpoint pushSparks (c : nat) (x y : Q) (g : Game.t) : Game.t :=
  match c with
  | O => g
  | S c' =>
      let '(r1, g) := random g in
      let '(r2, g) := random g in
      let s := Spark.mk x y (1.5 + r1 * 2.2) (120 + r2 * 200) in
      pushSparks c' x y (Game.set_sparks (Game.sparks g ++ [s]) g)
  end.

(** [addSpark(x, y, count)]; the script passes a whole [count] *)
Definition addSpark (x y : Q) (count : Z) (g : Game.t) : Game.t :=
  if prefersReducedMotion then g
  else
    let c := Z.max 6 (Z.min 16 count) in
    pushSparks (Z.to_nat c) x y g.

(** The loop of [spawnObstacle] that lays the glyphs out; [n] iterations left *)
Fixpoint layGlyphs (n : nat) (base gap : Z)
    (glyphs : list Glyph.t) (dx maxH : Q) (g : Game.t)
  : list Glyph.t * Q * Q * Game.t :=
  match n with
  | O => (glyphs, dx, maxH, g)
  | S n' =>
      let '(r, g) := random g in
      let size := Z.max 18 (Math_round (inject_Z base + (r * 10 - 5))) in
      let '(m, g) := measureEmoji CACTUS_EMOJI size g in
      let gw := Math_max 10 (Measure.w m) in
      let gh := Math_max 14 (Measure.h m) in
      let glyphs := glyphs ++ [Glyph.mk CACTUS_EMOJI size dx gw gh] in
      let dx := dx + (gw + inject_Z gap) in
      let maxH := Math_max maxH gh in
      layGlyphs n' base gap glyphs dx maxH g
  end.

(** [spawnObstacle()] *)
Definition spawnObstacle (g : Game.t) : Game.t :=
  let '(r, g) := random g in
  let count := (1 + Math_floor (r * 3))%Z in
  let '(r, g) := random g in
  let base := (20 + Math_floor (r * 14))%Z in
  let '(r, g) := random g in
  let gap := (2 + Math_floor (r * 3))%Z in
  let '(glyphs, dx, maxH, g) :=
    layGlyphs (Z.to_nat count) base gap [] 0 0 g in
  let w := Math_max 14 (dx - inject_Z gap) in
  let h := Math_max 16 maxH in
  let y := groundY g - h in
  Game.set_obstacles
    (Game.obstacles g ++ [Obstacle.mk (world_w g + 10) y w h glyphs]) g.

(** *** [update(dt)], one block of the function at a time *)

(** "Start when the user interacts": the branch taken while not started *)
Definition holdOnGround (g : Game.t) : Game.t :=
  let p := Player.set_onGround true (Game.player g) in
  let p := Player.set_y (groundY g - Player.h p) p in
  Game.set_player p g.

(** "Difficulty curve" *)
Definition difficulty (g : Game.t) : Game.t :=
  Game.set_speed (speedFor (Game.score g)) g.

(** "Gravity" *)
Definition gravity (dt : Q) (g : Game.t) : Game.t :=
  let grav := 1200 in
  let p := Game.player g in
  let p := Player.set_vy (Player.vy p + grav * dt) p in
  let p := Player.set_y (Player.y p + Player.vy p * dt) p in
  let gy := groundY g in
  let p :=
    if Player.y p + Player.h p >=? gy then
      Player.set_onGround true
        (Player.set_vy 0 (Player.set_y (gy - Player.h p) p))
    else p in
  Game.set_player p g.

(** "Spawn pacing" *)
Definition spawnPacing (dt : Q) (g : Game.t) : Game.t :=
  let g := Game.set_spawnTimer (Game.spawnTimer g - dt) g in
  if Game.spawnTimer g <=? 0 then
    let g := spawnObstacle g in
    let minGap := 0.75 in
    let maxGap := 1.35 in
    let '(r, g) := random g in
    Game.set_spawnTimer
      (minGap + r * (maxGap - minGap)
       + Math_max 0 ((520 - Game.speed g) / 900)) g
  else g.

(** "Move obstacles": the shift of one obstacle, then of all with the
    [filter] *)
Definition moveObstacle (speed dt : Q) (o : Obstacle.t) : Obstacle.t :=
  Obstacle.set_x (Obstacle.x o - speed * dt) o.

Definition scrollObstacles (speed dt : Q) (os : list Obstacle.t)
  : list Obstacle.t :=
  filter (fun o => Obstacle.x o + Obstacle.w o >? -30)
    (map (moveObstacle speed dt) os).

Definition moveObstacles (dt : Q) (g : Game.t) : Game.t :=
  Game.set_obstacles (scrollObstacles (Game.speed g) dt (Game.obstacles g)) g.

(** "Sparks drift" *)
Definition driftSpark (speed dt : Q) (s : Spark.t) : Spark.t :=
  let x := Spark.x s - (speed + Spark.spd s) * dt in
  let y := Spark.y s + (Math_sin (x * 0.02) * 10 + 8) * dt in
  let r := Spark.r s * (1 - 1.8 * dt) in
  Spark.mk x y r (Spark.spd s).

Definition driftSparks (dt : Q) (g : Game.t) : Game.t :=
  let drifted := map (driftSpark (Game.speed g) dt) (Game.sparks g) in
  Game.set_sparks (filter (fun s => Spark.r s >? 0.25) drifted) g.

(** "Score" *)
Definition addScore (dt : Q) (g : Game.t) : Game.t :=
  Game.set_score (Game.score g + dt * 60) g.

(** The body of the [if] in the collision loop: the game is lost *)
Definition lose (g : Game.t) : Game.t :=
  let g := Game.set_running false g in
  let p := Game.player g in
  let g := addSpark (Player.x p + Player.w p)
             (Player.y p + Player.h p - 6) 14 g in
  let floored := Math_floor (Game.score g) in
  if inject_Z floored >? Game.best g then
    let g := Game.set_best (inject_Z floored) g in
    match Storage.setItem storageKey (String_of_int floored)
            (Game.localStorage g) with
    | Normal st => Game.set_localStorage st g
    | Throw => g   (* ignore *)
    end
  else g.

(** "Collision": the loop over the obstacles, left at the first overlap *)
Fixpoint collide (p : Rect.t) (os : list Obstacle.t) (g : Game.t) : Game.t :=
  match os with
  | [] => g
  | o :: os' =>
      if rectsOverlap p (Obstacle.rect o) then lose g
      else collide p os' g
  end.

Definition collision (g : Game.t) : Game.t :=
  collide (Player.rect (Game.player g)) (Game.obstacles g) g.

(** Everything [update] does before the collision test *)
Definition advance (dt : Q) (g : Game.t) : Game.t :=
  addScore dt
    (driftSparks dt
       (moveObstacles dt
          (spawnPacing dt
             (gravity dt
                (difficulty g))))).

(** [update(dt)] *)
Definition update (dt : Q) (g : Game.t) : Game.t :=
  if negb (Game.started g) then holdOnGround g
  else collision (advance dt g).

(** [draw()], as far as it changes the state: the font it leaves selected *)
Definition draw (g : Game.t) : Game.t :=
  Game.set_ctx_font "12px Vazirmatn, system-ui, sans-serif" g.

(** *** Input and the frame loop *)

Definition start (g : Game.t) : Game.t :=
  if negb (Game.started g) then Game.set_started true g else g.

Definition restart (g : Game.t) : Game.t :=
  Game.set_started true (reset g).

Definition onJumpIntent (g : Game.t) : Game.t :=
  let g := start g in
  if negb (Game.running g) then g
  else Game.set_player (Player.jump (Game.player g)) g.

Definition isJumpKey (k : string) : bool :=
  String.eqb k " " || String.eqb k "ArrowUp"
  || String.eqb k "w" || String.eqb k "W".

Definition isRestartKey (k : string) : bool :=
  String.eqb k "r" || String.eqb k "R".

(** The [keydown] listener *)
Definition onKeyDown (k : string) (g : Game.t) : Game.t :=
  let g := if isJumpKey k then onJumpIntent g else g in
  if isRestartKey k then restart g else g.

(** The [pointerdown] listener of the canvas *)
Definition onPointerDown (g : Game.t) : Game.t :=
  if negb (Game.started g) then Game.set_started true g
  else if negb (Game.running g) then restart g
  else onJumpIntent g.

(** The [resize] listener *)
Definition onResize (devicePixelRatio : Q) (g : Game.t) : Game.t :=
  let g := fitCanvas devicePixelRatio g in
  let p := Game.player g in
  Game.set_player (Player.set_y (groundY g - Player.h p) p) g.

(** [loop(now)] *)
Definition loop (now : Q) (g : Game.t) : Game.t :=
  let dt := frameDt now (Game.last g) in
  let g := Game.set_last now g in
  let g := if Game.running g then update dt g else g in
  draw g.

(** What the browser can make the script do next. *)
Inductive Event : Type :=
| KeyDown (key : string)
| PointerDown
| RestartClick                       (* click on the restart button *)
| VisibilityChange (now : Q)         (* [now]: what performance.now() gives *)
| Layout (clientWidth : Q) (rectHeight : jsval)
                                     (* the page is laid out anew *)
| Resize (devicePixelRatio : Q)
| Frame (now : Q).                   (* the animation-frame callback *)

Definition handle (e : Event) (g : Game.t) : Game.t :=
  match e with
  | KeyDown k => onKeyDown k g
  | PointerDown => onPointerDown g
  | RestartClick => restart g
  | VisibilityChange now => Game.set_last now g
  | Layout cw rh =>
      let c := Game.canvas g in
      Game.set_canvas (Canvas.mk cw rh (Canvas.width c) (Canvas.height c)) g
  | Resize dpr => onResize dpr g
  | Frame now => loop now g
  end.

(** The state after a sequence of events, oldest first *)
Definition run (es : list Event) (g : Game.t) : Game.t :=
  fold_left (fun g e => handle e g) es g.

(** The script's top level, from what the page provides when it loads *)
Definition init (canvas : Canvas.t) (storage : Storage.t)
    (now devicePixelRatio : Q) : Game.t :=
  let g := Game.mk canvas "10px sans-serif" 200 player0 [] []
             true false 0 0 260 0 now storage O in
  let g := loadBest g in
  let g := fitCanvas devicePixelRatio g in
  reset g.

End Runner.


(** ** Drawing helpers *)

(** The path methods [roundRect] calls on a context *)
Inductive PathCall : Type :=
| beginPath
| moveTo (x y : Q)
| arcTo (x1 y1 x2 y2 radius : Q)
| closePath.

(** [roundRect(c, x, y, w, h, r)], as the calls it makes on [c], in order *)
Definition roundRect (x y w h r : Q) : list PathCall :=
  let rr := Math_max 0 (Math_min r (Math_min w h / 2)) in
  [ beginPath;
    moveTo (x + rr) y;
    arcTo (x + w) y (x + w) (y + h) rr;
    arcTo (x + w) (y + h) x (y + h) rr;
    arcTo x (y + h) x y rr;
    arcTo x y (x + w) y rr;
    closePath ].
(** ** Notions used to state the properties *)

(** The sparks one call of [addSpark] appends: [c] of them at [(x, y)], the
    radius and speed of each from two successive draws, the first draw being
    the [d]-th of the page. *)
Fixpoint burst {browser : Browser} (c : nat) (x y : Q) (d : nat)
  : list Spark.t :=
  match c with
  | O => []
  | S c' =>
      Spark.mk x y (1.5 + Math_random d * 2.2) (120 + Math_random (S d) * 200)
      :: burst c' x y (S (S d))
  end.

(** What [measureEmoji] returns for a glyph and a font size. *)
Definition measured {browser : Browser} (emoji : string) (fontPx : Z)
  : Measure.t :=
  let m :=
    measureText (String_of_int fontPx ++ "px " ++ EMOJI_FONT_STACK)%string
      emoji in
  let ascent :=
    match TextMetrics.actualBoundingBoxAscent m with
    | Num a => a
    | _ => inject_Z fontPx * 0.78
    end in
  let descent :=
    match TextMetrics.actualBoundingBoxDescent m with
    | Num d => d
    | _ => inject_Z fontPx * 0.22
    end in
  Measure.mk (Math_max 1 (or_else (TextMetrics.width m) (inject_Z fontPx)))
    (Math_max 1 (ascent + descent)) ascent descent.

(** Some obstacle of the list overlaps the rectangle [p]. *)
Definition hits (p : Rect.t) (os : list Obstacle.t) : bool :=
  existsb (fun o => rectsOverlap p (Obstacle.rect o)) os.

(** ** Two browsers and a page, to run the script on *)

Module Sample.

Lemma half_in_range (n : nat) : 0 <= 0.5 /\ 0.5 < 1.
Proof. split; [discriminate | reflexivity]. Qed.

(** A browser that reports full metrics: every glyph 30 wide, 24 above the
    baseline and 6 below. *)
Definition modern : Browser := {|
  measureText := fun font text =>
    TextMetrics.mk 30 (Num 24) (Num 6);
  Math_random := fun _ => 0.5;
  Math_random_range := half_in_range;
  Math_sin := fun _ => 0;
  StringToNumber := fun s => if String.eqb s "41" then Num 41 else NaN;
  prefersReducedMotion := false
|}.

(** A browser without bounding-box metrics, with reduced motion asked for. *)
Definition legacy : Browser := {|
  measureText := fun font text =>
    TextMetrics.mk 0 Undefined NaN;
  Math_random := fun _ => 0.5;
  Math_random_range := half_in_range;
  Math_sin := fun _ => 0;
  StringToNumber := fun _ => NaN;
  prefersReducedMotion := true
|}.

(** A canvas laid out at 640 by 200 pixels, and three stores *)
Definition canvas : Canvas.t := Canvas.mk 640 (Num 200) 640 200.
Definition emptyStore : Storage.t := Storage.mk [] false false.
Definition deniedStore : Storage.t := Storage.mk [] true false.
Definition savedStore : Storage.t :=
  Storage.mk [(storageKey, "41"%string)] false false.

(** The page just loaded in the modern browser, and after a first key press *)
Definition loaded : Game.t := init (browser := modern) canvas emptyStore 0 1.
Definition playing : Game.t :=
  handle (browser := modern) (KeyDown " ") loaded.

(** A cactus placed on the player *)
Definition cactus : Obstacle.t := Obstacle.mk 50 140 20 30 [].
Definition crashing : Game.t :=
  Game.set_score 99.5 (Game.set_obstacles [cactus] playing).

End Sample.


(** ** Notions used to state further properties *)

(** Where a row of glyphs ends that starts at [start] and leaves [gap] pixels
    after every glyph. *)
Fixpoint rowEnd (gap : Z) (start : Q) (glyphs : list Glyph.t) : Q :=
  match glyphs with
  | [] => start
  | gl :: rest => rowEnd gap (start + (Glyph.w gl + inject_Z gap)) rest
  end.

(** The glyphs stand in a row: the first at [start], every next one [gap]
    pixels after the right edge of the one before. *)
Fixpoint inRow (gap : Z) (start : Q) (glyphs : list Glyph.t) : Prop :=
  match glyphs with
  | [] => True
  | gl :: rest =>
      Glyph.dx gl = start
      /\ inRow gap (start + (Glyph.w gl + inject_Z gap)) rest
  end.

(** A glyph as [spawnObstacle] makes them, inside the box of its obstacle. *)
Definition glyphFits (o : Obstacle.t) (gl : Glyph.t) : Prop :=
  Glyph.emoji gl = CACTUS_EMOJI
  /\ (18 <= Glyph.size gl <= 38)%Z
  /\ 10 <= Glyph.w gl
  /\ 14 <= Glyph.h gl
  /\ 0 <= Glyph.dx gl
  /\ Glyph.dx gl + Glyph.w gl <= Obstacle.w o
  /\ Glyph.h gl <= Obstacle.h o.

(** An obstacle as [spawnObstacle] makes them. *)
Definition wellFormed (o : Obstacle.t) : Prop :=
  14 <= Obstacle.w o
  /\ 16 <= Obstacle.h o
  /\ (1 <= List.length (Obstacle.glyphs o) <= 3)%nat
  /\ Forall (glyphFits o) (Obstacle.glyphs o).

(** *** Properties of a state that every event keeps *)

(** The box of the player: where the script put it, and no smaller than
    [reset] makes it. *)
Definition boxKept (g : Game.t) : Prop :=
  let p := Game.player g in
  Player.x p = 46 /\ Player.fontPx p = 30%Z
  /\ 18 <= Player.w p /\ 22 <= Player.h p.

(** Score, speed and spawn timer within their ranges. *)
Definition inRange (g : Game.t) : Prop :=
  0 <= Game.score g
  /\ 260 <= Game.speed g /\ Game.speed g <= 520
  /\ 0 <= Game.spawnTimer g /\ Game.spawnTimer g < 1.64.

(** Every obstacle is a well-formed cluster not yet past the left margin. *)
Definition obstaclesLive (g : Game.t) : Prop :=
  Forall (fun o => wellFormed o /\ -30 < Obstacle.x o + Obstacle.w o)
    (Game.obstacles g).

(** Sparks are there only once the session is lost, and are as created. *)
Definition sparksOnlyAfterLoss {browser : Browser} (g : Game.t) : Prop :=
  (Game.running g = true -> Game.sparks g = [])
  /\ (prefersReducedMotion = true -> Game.sparks g = [])
  /\ (Game.sparks g = [] \/ List.length (Game.sparks g) = 14%nat)
  /\ Forall (fun s => 1.5 <= Spark.r s /\ Spark.r s < 3.7
                      /\ 120 <= Spark.spd s /\ Spark.spd s < 320)
       (Game.sparks g).

(** Before the first input nothing has happened yet. *)
Definition idleUntilStarted (g : Game.t) : Prop :=
  Game.started g = false ->
  Game.running g = true
  /\ Game.score g = 0
  /\ Game.speed g = 260
  /\ Game.spawnTimer g = 0
  /\ Game.obstacles g = []
  /\ Game.sparks g = []
  /\ Player.vy (Game.player g) = 0
  /\ Player.onGround (Game.player g) = true.
(** ** Properties *)

(** *** Comparisons *)

Lemma lt_true_iff (a b : Q) : (a <? b) = true <-> a < b.
Proof.
  unfold JS.lt. rewrite Qlt_alt.
  destruct (a ?= b); split; congruence.
Qed.

Lemma gt_true_iff (a b : Q) : (a >? b) = true <-> b < a.
Proof. apply lt_true_iff. Qed.

Lemma gt_false_iff (a b : Q) : (a >? b) = false <-> a <= b.
Proof.
  rewrite <- not_true_iff_false, gt_true_iff.
  split; [apply Qnot_lt_le | apply Qle_not_lt].
Qed.

Lemma le_true_iff (a b : Q) : (a <=? b) = true <-> a <= b.
Proof. apply Qle_bool_iff. Qed.

Lemma le_false_iff (a b : Q) : (a <=? b) = false <-> b < a.
Proof.
  rewrite <- not_true_iff_false, le_true_iff.
  split; [apply Qnot_le_lt | apply Qlt_not_le].
Qed.

(** *** Collision test *)

Lemma rectsOverlap_true_iff (a b : Rect.t) :
  rectsOverlap a b = true <->
  Rect.x a < Rect.x b + Rect.w b /\
  Rect.x a + Rect.w a > Rect.x b /\
  Rect.y a < Rect.y b + Rect.h b /\
  Rect.y a + Rect.h a > Rect.y b.
Proof.
  unfold rectsOverlap.
  rewrite !andb_true_iff, !lt_true_iff, !gt_true_iff.
  tauto.
Qed.

(** C1.  [rectsOverlap a b] is true exactly when the four half-plane tests
    hold strictly; rectangles that meet only along an edge (the right edge of
    one on the left edge of the other, or the bottom edge of one on the top
    edge of the other) do not overlap. *)
Theorem rectsOverlap_strict (a b : Rect.t) :
  (rectsOverlap a b = true <->
   Rect.x a < Rect.x b + Rect.w b /\
   Rect.x a + Rect.w a > Rect.x b /\
   Rect.y a < Rect.y b + Rect.h b /\
   Rect.y a + Rect.h a > Rect.y b)
  /\
  (Rect.x a + Rect.w a == Rect.x b \/
   Rect.x b + Rect.w b == Rect.x a \/
   Rect.y a + Rect.h a == Rect.y b \/
   Rect.y b + Rect.h b == Rect.y a ->
   rectsOverlap a b = false).
Proof.
  split; [apply rectsOverlap_true_iff|].
  intros Hedge.
  apply not_true_iff_false. rewrite rectsOverlap_true_iff.
  intros (H1 & H2 & H3 & H4).
  destruct Hedge as [E | [E | [E | E]]]; lra.
Qed.

(** Two 10 by 10 squares side by side, sharing the edge at x = 10. *)
Lemma rectsOverlap_strict_witness :
  rectsOverlap (Rect.mk 0 0 10 10) (Rect.mk 10 0 10 10) = false.
Proof.
  apply (proj2 (rectsOverlap_strict (Rect.mk 0 0 10 10) (Rect.mk 10 0 10 10))).
  left. reflexivity.
Defined.

(** *** Jump *)

(** C3.  [jump] leaves an airborne player as it is; a grounded player gets the
    vertical velocity -460 and loses the grounded flag, nothing else
    changes; hence a jump directly after a jump changes nothing. *)
Theorem jump_only_from_ground (p : Player.t) :
  (Player.onGround p = false -> Player.jump p = p)
  /\
  (Player.onGround p = true ->
   Player.vy (Player.jump p) = -460 /\
   Player.onGround (Player.jump p) = false /\
   Player.x (Player.jump p) = Player.x p /\
   Player.y (Player.jump p) = Player.y p /\
   Player.w (Player.jump p) = Player.w p /\
   Player.h (Player.jump p) = Player.h p /\
   Player.fontPx (Player.jump p) = Player.fontPx p)
  /\
  Player.jump (Player.jump p) = Player.jump p.
Proof.
  unfold Player.jump.
  destruct (Player.onGround p) eqn:E; cbn [negb].
  - repeat split; try discriminate; reflexivity.
  - rewrite E. repeat split; try discriminate; reflexivity.
Qed.

(** Scenario B of the specification: on the ground line of a 200 pixel high
    canvas, at rest. *)
Lemma jump_only_from_ground_witness :
  let p := Player.mk 46 150 0 true 30 22 28 in
  Player.vy (Player.jump p) = -460 /\
  Player.onGround (Player.jump p) = false /\
  Player.jump (Player.jump p) = Player.jump p.
Proof.
  intro p.
  pose proof (jump_only_from_ground p) as (_ & Hg & Hj).
  destruct (Hg eq_refl) as (Hvy & Hog & _).
  exact (conj Hvy (conj Hog Hj)).
Defined.

(** *** How the functions of the script act on the state *)

Ltac game_simpl :=
  cbn [Game.canvas Game.ctx_font Game.lastCssH Game.player Game.obstacles
       Game.sparks Game.running Game.started Game.score Game.best Game.speed
       Game.spawnTimer Game.last Game.localStorage Game.draws
       Game.set_canvas Game.set_ctx_font Game.set_lastCssH Game.set_player
       Game.set_obstacles Game.set_sparks Game.set_running Game.set_started
       Game.set_score Game.set_best Game.set_speed Game.set_spawnTimer
       Game.set_last Game.set_localStorage Game.set_draws fst snd] in *.

Ltac player_simpl :=
  cbn [Player.x Player.y Player.vy Player.onGround Player.fontPx Player.w
       Player.h Player.set_y Player.set_vy Player.set_onGround Player.set_w
       Player.set_h] in *.

Lemma game_eta (g : Game.t) :
  Game.mk (Game.canvas g) (Game.ctx_font g) (Game.lastCssH g) (Game.player g)
    (Game.obstacles g) (Game.sparks g) (Game.running g) (Game.started g)
    (Game.score g) (Game.best g) (Game.speed g) (Game.spawnTimer g)
    (Game.last g) (Game.localStorage g) (Game.draws g) = g.
Proof. destruct g; reflexivity. Qed.

Create Rewrite HintDb frame.

Section Facts.

Context {browser : Browser}.

(** Measuring leaves the whole state, the selected font included, as it
    found it. *)
Lemma measureEmoji_state (emoji : string) (fontPx : Z) (g : Game.t) :
  snd (measureEmoji emoji fontPx g) = g.
Proof. destruct g; reflexivity. Qed.

Lemma measureEmoji_eq (emoji : string) (fontPx : Z) (g : Game.t) :
  measureEmoji emoji fontPx g = (measured emoji fontPx, g).
Proof. destruct g; reflexivity. Qed.

(** Laying [n] glyphs out costs [n] draws and nothing else. *)
Lemma layGlyphs_state (n : nat) (base gap : Z) (glyphs : list Glyph.t)
    (dx maxH : Q) (g : Game.t) :
  snd (layGlyphs n base gap glyphs dx maxH g)
  = Game.set_draws (n + Game.draws g) g.
Proof.
  revert glyphs dx maxH g.
  induction n as [|n IH]; intros glyphs dx maxH g.
  - cbn [layGlyphs snd plus]. unfold Game.set_draws. symmetry. apply game_eta.
  - cbn [layGlyphs]. unfold random.
    rewrite measureEmoji_eq. rewrite IH. game_simpl.
    unfold Game.set_draws. game_simpl. f_equal. lia.
Qed.

(** Spawning appends one obstacle and draws random numbers; nothing else
    changes. *)
Lemma spawnObstacle_eq (g : Game.t) :
  exists (o : Obstacle.t) (n : nat),
    (Game.draws g < n)%nat /\
    spawnObstacle g
    = Game.set_obstacles (Game.obstacles g ++ [o]) (Game.set_draws n g).
Proof.
  unfold spawnObstacle, random. game_simpl.
  match goal with
  | |- context [layGlyphs ?n ?b ?gp ?gl ?dx ?mh ?g0] =>
      pose proof (layGlyphs_state n b gp gl dx mh g0) as Hs;
      destruct (layGlyphs n b gp gl dx mh g0) as [[[glyphs dx'] maxH'] g'];
      set (k := n) in *
  end.
  cbn [snd] in Hs. subst g'. game_simpl.
  eexists. exists (k + S (S (S (Game.draws g))))%nat.
  split; [lia|]. reflexivity.
Qed.

(** [pushSparks] appends the burst and consumes two draws a spark. *)
Lemma pushSparks_eq (c : nat) (x y : Q) (g : Game.t) :
  pushSparks c x y g
  = Game.set_sparks (Game.sparks g ++ burst c x y (Game.draws g))
      (Game.set_draws (2 * c + Game.draws g) g).
Proof.
  revert g. induction c as [|c IH]; intro g.
  - cbn [pushSparks burst]. rewrite app_nil_r.
    unfold Game.set_sparks, Game.set_draws. game_simpl.
    symmetry. apply game_eta.
  - cbn [pushSparks burst]. unfold random. game_simpl. rewrite IH.
    game_simpl. rewrite <- app_assoc. cbn [app].
    unfold Game.set_sparks, Game.set_draws. game_simpl.
    f_equal. lia.
Qed.

(** The collision loop stops at the first overlap, and its body does not
    look at the obstacle found. *)
Lemma collide_eq (p : Rect.t) (os : list Obstacle.t) (g : Game.t) :
  collide p os g = if hits p os then lose g else g.
Proof.
  induction os as [|o os IH]; cbn [collide hits existsb]; [reflexivity|].
  destruct (rectsOverlap p (Obstacle.rect o)); [reflexivity|].
  exact IH.
Qed.

Ltac script_step :=
  match goal with
  | |- context [collide ?p ?os ?g] => rewrite (collide_eq p os g)
  | |- context [lose _] => unfold lose, addSpark
  | |- context [pushSparks ?c ?x ?y ?g] => rewrite (pushSparks_eq c x y g)
  | |- context [measureEmoji ?e ?f ?g] => rewrite (measureEmoji_eq e f g)
  | |- context [spawnObstacle ?g] =>
      let o := fresh "o" in
      let n := fresh "n" in
      let E := fresh "E" in
      destruct (spawnObstacle_eq g) as (o & n & _ & E); rewrite E; clear E
  | |- context [if ?b then _ else _] => destruct b
  | |- context [match ?c with Normal _ => _ | Throw => _ end] => destruct c
  end; game_simpl.

Ltac frame :=
  intros;
  unfold update, collision, advance, addScore, driftSparks, moveObstacles,
    spawnPacing, gravity, difficulty, holdOnGround, lose, addSpark, random;
  game_simpl; repeat script_step; reflexivity.

(** What the spawn-pacing block leaves alone *)

Lemma spawnPacing_sparks dt g :
  Game.sparks (spawnPacing dt g) = Game.sparks g.
Proof. frame. Qed.

Lemma spawnPacing_score dt g :
  Game.score (spawnPacing dt g) = Game.score g.
Proof. frame. Qed.

Lemma spawnPacing_best dt g :
  Game.best (spawnPacing dt g) = Game.best g.
Proof. frame. Qed.

Lemma spawnPacing_speed dt g :
  Game.speed (spawnPacing dt g) = Game.speed g.
Proof. frame. Qed.

Lemma spawnPacing_localStorage dt g :
  Game.localStorage (spawnPacing dt g) = Game.localStorage g.
Proof. frame. Qed.

(** What losing leaves alone *)

Lemma lose_obstacles g : Game.obstacles (lose g) = Game.obstacles g.
Proof. frame. Qed.

Lemma lose_score g : Game.score (lose g) = Game.score g.
Proof. frame. Qed.

Lemma lose_speed g : Game.speed (lose g) = Game.speed g.
Proof. frame. Qed.

Lemma lose_spawnTimer g : Game.spawnTimer (lose g) = Game.spawnTimer g.
Proof. frame. Qed.

(** What the steps before the collision test leave alone *)

#[local] Hint Rewrite spawnPacing_sparks spawnPacing_score spawnPacing_best
  spawnPacing_speed spawnPacing_localStorage : frame.

Ltac advance_frame :=
  intros; unfold advance, addScore, driftSparks, moveObstacles; game_simpl;
  autorewrite with frame;
  unfold gravity, difficulty; game_simpl; try reflexivity.

Lemma advance_best dt g : Game.best (advance dt g) = Game.best g.
Proof. advance_frame. Qed.

Lemma advance_localStorage dt g : Game.localStorage (advance dt g) = Game.localStorage g.
Proof. advance_frame. Qed.

Lemma advance_score dt g :
  Game.score (advance dt g) = Game.score g + dt * 60.
Proof. advance_frame. Qed.

Lemma advance_speed dt g :
  Game.speed (advance dt g) = speedFor (Game.score g).
Proof. advance_frame. Qed.

Lemma collision_eq g :
  collision g
  = if hits (Player.rect (Game.player g)) (Game.obstacles g) then lose g
    else g.
Proof. apply collide_eq. Qed.

Lemma update_started dt g :
  Game.started g = true -> update dt g = collision (advance dt g).
Proof. intros E. unfold update. rewrite E. reflexivity. Qed.

Lemma update_speed dt g :
  Game.started g = true ->
  Game.speed (update dt g) = speedFor (Game.score g).
Proof.
  intros E. rewrite (update_started dt g E), collision_eq.
  destruct (hits _ _); rewrite ?lose_speed; apply advance_speed.
Qed.

(** *** Difficulty curve *)

Lemma speedFor_le_cap (s : Q) : speedFor s <= 520.
Proof. apply Q.le_min_l. Qed.

Lemma speedFor_mono (s1 s2 : Q) : s1 <= s2 -> speedFor s1 <= speedFor s2.
Proof.
  intros H. unfold speedFor, Math_min.
  apply Q.min_glb; [apply Q.le_min_l|].
  eapply Qle_trans; [apply Q.le_min_r|]. lra.
Qed.

Lemma speedFor_ge_base (s : Q) : 0 <= s -> 260 <= speedFor s.
Proof.
  intros H. unfold speedFor, Math_min.
  apply Q.min_glb; lra.
Qed.

(** C4.  A started tick sets the world speed to min(520, 260 + score * 0.9),
    for the score the tick starts with; this function of the score is
    non-decreasing and capped at 520, and on non-negative scores it stays
    within [260, 520]. *)
Theorem speed_follows_capped_curve (dt : Q) (g : Game.t) (s1 s2 : Q) :
  (Game.started g = true ->
   Game.speed (update dt g) = Math_min 520 (260 + Game.score g * 0.9))
  /\
  (s1 < s2 -> speedFor s1 <= speedFor s2 /\ speedFor s2 <= 520)
  /\
  (0 <= s1 -> 260 <= speedFor s1 /\ speedFor s1 <= 520).
Proof.
  split; [apply update_speed|].
  split.
  - intros H. split; [apply speedFor_mono; lra | apply speedFor_le_cap].
  - intros H. split; [apply speedFor_ge_base; assumption
                     | apply speedFor_le_cap].
Qed.

(** *** Frame delta *)

Lemma frameDt_le (now last : Q) : frameDt now last <= 0.033.
Proof. apply Q.le_min_l. Qed.

Lemma frameDt_nonneg (now last : Q) : 0 <= frameDt now last.
Proof.
  unfold frameDt, Math_min, Math_max.
  apply Q.min_glb; [discriminate | apply Q.le_max_l].
Qed.

Lemma frameDt_stall (now last : Q) :
  33 <= now - last -> frameDt now last == 0.033.
Proof.
  intros H. unfold frameDt, Math_min, Math_max.
  apply Q.min_l. eapply Qle_trans; [|apply Q.le_max_r].
  apply Qle_shift_div_l; [reflexivity | lra].
Qed.

Lemma frameDt_backwards (now last : Q) :
  now <= last -> frameDt now last == 0.
Proof.
  intros H. unfold frameDt, Math_min, Math_max.
  assert (E : Qmax 0 ((now - last) / 1000) == 0).
  { apply Q.max_l. apply Qle_shift_div_r; [reflexivity | lra]. }
  rewrite E. apply Q.min_r. discriminate.
Qed.

Lemma loop_eq (now : Q) (g : Game.t) :
  loop now g
  = draw (if Game.running g
          then update (frameDt now (Game.last g)) (Game.set_last now g)
          else Game.set_last now g).
Proof. reflexivity. Qed.

(** C5.  The delta [loop] hands to [update] is [frameDt now last], which is
    at most 0.033 and so at most 1/30 of a second whatever the two
    timestamps are; a stall of five seconds gives exactly 0.033.  With such
    a delta an obstacle moves by at most 520 * 0.033 pixels in a tick, less
    than the 18 pixels a player is wide at least: an obstacle wholly ahead
    of the player before the move is not wholly behind it afterwards. *)
Theorem frame_delta_clamped (now : Q) (g : Game.t) (o : Obstacle.t) :
  let dt := frameDt now (Game.last g) in
  let p := Game.player g in
  loop now g
  = draw (if Game.running g then update dt (Game.set_last now g)
          else Game.set_last now g)
  /\ dt <= 1 / 30
  /\ (now - Game.last g == 5000 -> dt == 0.033)
  /\ (18 <= Player.w p -> 0 <= Obstacle.w o ->
      Player.x p + Player.w p <= Obstacle.x o ->
      let o' := moveObstacle (speedFor (Game.score g)) dt o in
      Player.x p < Obstacle.x o' + Obstacle.w o').
Proof.
  intros dt p. split; [reflexivity|].
  pose proof (frameDt_le now (Game.last g)) as Hle.
  pose proof (frameDt_nonneg now (Game.last g)) as Hge.
  fold dt in Hle, Hge.
  split; [|split].
  - eapply Qle_trans; [exact Hle | discriminate].
  - intros H. apply frameDt_stall. lra.
  - intros Hw How Hahead o'. subst o'.
    unfold moveObstacle, Obstacle.set_x. cbn [Obstacle.x Obstacle.w].
    pose proof (speedFor_le_cap (Game.score g)) as Hs.
    assert (speedFor (Game.score g) * dt <= 520 * 0.033) by nra.
    lra.
Qed.

(** *** Spawn pacing *)

Lemma spawnPacing_spawn (dt : Q) (g : Game.t) :
  Game.spawnTimer g - dt <= 0 ->
  exists (o : Obstacle.t) (n : nat),
    (Game.draws g < n)%nat
    /\ Game.obstacles (spawnPacing dt g) = Game.obstacles g ++ [o]
    /\ Game.spawnTimer (spawnPacing dt g)
       = 0.75 + Math_random n * (1.35 - 0.75)
         + Math_max 0 ((520 - Game.speed g) / 900).
Proof.
  intros H. unfold spawnPacing. game_simpl.
  apply le_true_iff in H. rewrite H. unfold random.
  match goal with
  | |- context [spawnObstacle ?g0] =>
      destruct (spawnObstacle_eq g0) as (o & n & Hn & E); rewrite E
  end.
  game_simpl. exists o, n. repeat split. exact Hn.
Qed.

Lemma spawnPacing_wait (dt : Q) (g : Game.t) :
  0 < Game.spawnTimer g - dt ->
  spawnPacing dt g = Game.set_spawnTimer (Game.spawnTimer g - dt) g.
Proof.
  intros H. unfold spawnPacing. game_simpl.
  apply le_false_iff in H. rewrite H. reflexivity.
Qed.

Lemma update_obstacles (dt : Q) (g : Game.t) :
  Game.started g = true ->
  Game.obstacles (update dt g)
  = scrollObstacles (speedFor (Game.score g)) dt
      (Game.obstacles (spawnPacing dt (gravity dt (difficulty g)))).
Proof.
  intros E. rewrite (update_started dt g E), collision_eq.
  destruct (hits _ _); rewrite ?lose_obstacles;
    unfold advance, addScore, driftSparks, moveObstacles; game_simpl;
    rewrite spawnPacing_speed; reflexivity.
Qed.

Lemma update_spawnTimer (dt : Q) (g : Game.t) :
  Game.started g = true ->
  Game.spawnTimer (update dt g)
  = Game.spawnTimer (spawnPacing dt (gravity dt (difficulty g))).
Proof.
  intros E. rewrite (update_started dt g E), collision_eq.
  destruct (hits _ _); rewrite ?lose_spawnTimer; reflexivity.
Qed.

Lemma scrollObstacles_length (speed dt : Q) (os : list Obstacle.t) :
  (List.length (scrollObstacles speed dt os) <= List.length os)%nat.
Proof.
  unfold scrollObstacles.
  rewrite <- (length_map (moveObstacle speed dt) os).
  apply filter_length_le.
Qed.

Lemma base_interval_range (r : Q) :
  0 <= r /\ r < 1 ->
  0.75 <= 0.75 + r * (1.35 - 0.75) /\ 0.75 + r * (1.35 - 0.75) < 1.35.
Proof. intros [H0 H1]. split; lra. Qed.

(** *** Losing *)

Lemma burst_length (c : nat) (x y : Q) (d : nat) :
  List.length (burst c x y d) = c.
Proof.
  revert d. induction c as [|c IH]; intro d; cbn [burst List.length];
    [reflexivity | rewrite IH; reflexivity].
Qed.

Lemma burst_position (c : nat) (x y : Q) (d : nat) :
  Forall (fun s => Spark.x s = x /\ Spark.y s = y) (burst c x y d).
Proof.
  revert d. induction c as [|c IH]; intro d; cbn [burst]; constructor;
    [split; reflexivity | apply IH].
Qed.

Lemma lose_running (g : Game.t) : Game.running (lose g) = false.
Proof. frame. Qed.

Lemma lose_sparks (g : Game.t) :
  let p := Game.player g in
  Game.sparks (lose g)
  = if prefersReducedMotion then Game.sparks g
    else Game.sparks g
           ++ burst 14 (Player.x p + Player.w p)
                (Player.y p + Player.h p - 6) (Game.draws g).
Proof.
  intro p. unfold lose, addSpark. game_simpl.
  destruct prefersReducedMotion; repeat script_step; reflexivity.
Qed.

Lemma lose_best (g : Game.t) :
  let floored := inject_Z (Math_floor (Game.score g)) in
  Game.best (lose g)
  = if floored >? Game.best g then floored else Game.best g.
Proof.
  intro floored. unfold lose, addSpark. game_simpl.
  destruct prefersReducedMotion; game_simpl;
    rewrite ?pushSparks_eq; game_simpl; fold floored;
    destruct (floored >? Game.best g); game_simpl;
    try destruct (Storage.setItem _ _ _); reflexivity.
Qed.

Lemma lose_localStorage (g : Game.t) :
  let floored := Math_floor (Game.score g) in
  Game.localStorage (lose g)
  = if inject_Z floored >? Game.best g then
      match Storage.setItem storageKey (String_of_int floored)
              (Game.localStorage g) with
      | Normal st => st
      | Throw => Game.localStorage g
      end
    else Game.localStorage g.
Proof.
  intro floored. unfold lose, addSpark. game_simpl.
  destruct prefersReducedMotion; game_simpl;
    rewrite ?pushSparks_eq; game_simpl; fold floored;
    destruct (inject_Z floored >? Game.best g); game_simpl;
    try destruct (Storage.setItem _ _ _); reflexivity.
Qed.

Lemma lose_best_le (g : Game.t) : Game.best g <= Game.best (lose g).
Proof.
  rewrite lose_best. cbv zeta.
  destruct (_ >? _) eqn:E; [|apply Qle_refl].
  apply gt_true_iff in E. apply Qlt_le_weak, E.
Qed.

Lemma lose_best_ge_score (g : Game.t) :
  inject_Z (Math_floor (Game.score g)) <= Game.best (lose g).
Proof.
  rewrite lose_best. cbv zeta.
  destruct (_ >? _) eqn:E; [apply Qle_refl|].
  apply gt_false_iff in E. exact E.
Qed.

(** *** The best score over a run of events *)

Lemma reset_eq (g : Game.t) :
  let fontPx := Player.fontPx (Game.player g) in
  let mIdle := measured PLAYER_EMOJI_IDLE fontPx in
  let mRun := measured PLAYER_EMOJI_RUN fontPx in
  let mLose := measured PLAYER_EMOJI_LOSE fontPx in
  let maxW := Math_max3 (Measure.w mIdle) (Measure.w mRun) (Measure.w mLose) in
  let maxH := Math_max3 (Measure.h mIdle) (Measure.h mRun) (Measure.h mLose) in
  let h := Math_max 22 (maxH * 0.92) in
  reset g
  = Game.mk (Game.canvas g) (Game.ctx_font g) (Game.lastCssH g)
      (Player.mk (Player.x (Game.player g)) (groundY g - h) 0 true fontPx
         (Math_max 18 (maxW * 0.92)) h)
      [] [] true false 0 (Game.best g) 260 0 (Game.last g)
      (Game.localStorage g) (Game.draws g).
Proof.
  intros fontPx mIdle mRun mLose maxW maxH h.
  unfold reset. cbv zeta.
  repeat (rewrite measureEmoji_eq; cbv beta iota).
  unfold Game.set_player. game_simpl. player_simpl.
  reflexivity.
Qed.

Lemma reset_best (g : Game.t) : Game.best (reset g) = Game.best g.
Proof. rewrite reset_eq. reflexivity. Qed.

Lemma update_best_le (dt : Q) (g : Game.t) :
  Game.best g <= Game.best (update dt g).
Proof.
  unfold update. destruct (Game.started g); cbn [negb];
    [|apply Qle_refl].
  rewrite collision_eq. destruct (hits _ _).
  - rewrite <- (advance_best dt g) at 1. apply lose_best_le.
  - rewrite advance_best. apply Qle_refl.
Qed.

Lemma onJumpIntent_best (g : Game.t) :
  Game.best (onJumpIntent g) = Game.best g.
Proof.
  unfold onJumpIntent, start.
  destruct (Game.started g); cbn [negb]; game_simpl;
    destruct (Game.running g); reflexivity.
Qed.

Lemma restart_best (g : Game.t) : Game.best (restart g) = Game.best g.
Proof. unfold restart. game_simpl. apply reset_best. Qed.

Lemma handle_best_le (e : Event) (g : Game.t) :
  Game.best g <= Game.best (handle e g).
Proof.
  destruct e; cbn [handle].
  - unfold onKeyDown.
    destruct (isJumpKey key), (isRestartKey key);
      rewrite ?restart_best, ?onJumpIntent_best; apply Qle_refl.
  - unfold onPointerDown.
    destruct (Game.started g), (Game.running g); cbn [negb];
      rewrite ?restart_best, ?onJumpIntent_best; apply Qle_refl.
  - rewrite restart_best. apply Qle_refl.
  - apply Qle_refl.
  - apply Qle_refl.
  - apply Qle_refl.
  - rewrite loop_eq. unfold draw. game_simpl.
    destruct (Game.running g); [|apply Qle_refl].
    apply (update_best_le _ (Game.set_last now g)).
Qed.

Lemma run_best_le (es : list Event) (g : Game.t) :
  Game.best g <= Game.best (run es g).
Proof.
  unfold run. revert g.
  induction es as [|e es IH]; intro g; cbn [fold_left];
    [apply Qle_refl|].
  eapply Qle_trans; [apply (handle_best_le e g) | apply IH].
Qed.

(** C2.  In a started tick whose collision test finds the player's box on
    an obstacle, [running] becomes false, so that no later frame updates
    the session; unless reduced motion is asked for, 14 sparks are
    appended, all at the point
    (player.x + player.w, player.y + player.h - 6), and none otherwise;
    the best score becomes floor(score) and the store is written exactly
    when floor(score) is greater than the best score so far, for the
    score the tick has just increased.  After such a tick the best score
    is at least floor(score).  A started tick that finds no overlap ends
    after the score step.  Over any sequence of events the best score
    never decreases. *)
Theorem collision_ends_session
    (dt : Q) (g : Game.t) (es : list Event) :
  let g1 := advance dt g in
  let g2 := update dt g in
  let p := Game.player g1 in
  let floored := Math_floor (Game.score g + dt * 60) in
  (Game.started g = true ->
   hits (Player.rect p) (Game.obstacles g1) = true ->
   Game.running g2 = false
   /\ (forall now, loop now g2 = draw (Game.set_last now g2))
   /\ (exists added : list Spark.t,
         Game.sparks g2 = Game.sparks g1 ++ added
         /\ (prefersReducedMotion = true -> added = [])
         /\ (prefersReducedMotion = false ->
             List.length added = 14%nat
             /\ Forall (fun s => Spark.x s = Player.x p + Player.w p
                                 /\ Spark.y s = Player.y p + Player.h p - 6)
                  added))
   /\ (Game.best g < inject_Z floored ->
       Game.best g2 = inject_Z floored
       /\ Game.localStorage g2
          = match Storage.setItem storageKey (String_of_int floored)
                    (Game.localStorage g) with
            | Normal st => st
            | Throw => Game.localStorage g
            end)
   /\ (inject_Z floored <= Game.best g ->
       Game.best g2 = Game.best g
       /\ Game.localStorage g2 = Game.localStorage g)
   /\ inject_Z (Math_floor (Game.score g2)) <= Game.best g2)
  /\ (Game.started g = true ->
      hits (Player.rect p) (Game.obstacles g1) = false ->
      g2 = g1)
  /\ Game.best g <= Game.best (run es g).
Proof.
  intros g1 g2 p floored.
  assert (Eg2 : Game.started g = true ->
                g2 = if hits (Player.rect p) (Game.obstacles g1)
                     then lose g1 else g1).
  { intros E. unfold g2. rewrite (update_started dt g E). apply collision_eq. }
  split; [|split; [|apply run_best_le]].
  2: { intros E Hmiss. rewrite (Eg2 E), Hmiss. reflexivity. }
  intros E Hhit.
  assert (Escore : Game.score g1 = Game.score g + dt * 60)
    by apply advance_score.
  assert (Ebest : Game.best g1 = Game.best g) by apply advance_best.
  assert (Estore : Game.localStorage g1 = Game.localStorage g)
    by apply advance_localStorage.
  rewrite (Eg2 E), Hhit.
  split; [apply lose_running|].
  split; [intros now; rewrite loop_eq, lose_running; reflexivity|].
  split.
  { rewrite lose_sparks. cbv zeta. fold p.
    destruct prefersReducedMotion.
    - exists []. rewrite app_nil_r.
      repeat split; try reflexivity; discriminate.
    - eexists. split; [reflexivity|].
      split; [discriminate|]. intros _.
      split; [apply burst_length | apply burst_position]. }
  split; [|split].
  - intros Hlt. apply gt_true_iff in Hlt.
    rewrite lose_best, lose_localStorage. cbv zeta.
    rewrite Escore, Ebest, Estore. fold floored.
    rewrite Hlt. split; reflexivity.
  - intros Hle. apply gt_false_iff in Hle.
    rewrite lose_best, lose_localStorage. cbv zeta.
    rewrite Escore, Ebest, Estore. fold floored.
    rewrite Hle. split; reflexivity.
  - rewrite lose_score. apply lose_best_ge_score.
Qed.

(** *** Restart *)

(** C6.  [restart], from any state, empties the obstacle and spark lists,
    sets the score to 0, the speed to 260 and the spawn timer to 0, puts
    the player at rest on the ground, at y = groundY - player.h for the
    height just measured, and leaves the session started and running.
    The restart button, the keys r and R, and a pointer press after a
    loss all do exactly this. *)
Theorem restart_resets_everything (g : Game.t) :
  let g' := restart g in
  let p := Game.player g' in
  Game.obstacles g' = []
  /\ Game.sparks g' = []
  /\ Game.score g' = 0
  /\ Game.speed g' = 260
  /\ Game.spawnTimer g' = 0
  /\ Player.y p = groundY g' - Player.h p
  /\ Player.vy p = 0
  /\ Player.onGround p = true
  /\ Game.running g' = true
  /\ Game.started g' = true
  /\ handle RestartClick g = g'
  /\ handle (KeyDown "r") g = g'
  /\ handle (KeyDown "R") g = g'
  /\ (Game.started g = true -> Game.running g = false ->
      handle PointerDown g = g').
Proof.
  intros g' p. subst p g'.
  assert (Ekey : forall k, isJumpKey k = false -> isRestartKey k = true ->
                           handle (KeyDown k) g = restart g).
  { intros k Hj Hr. cbn [handle]. unfold onKeyDown.
    rewrite Hj, Hr. reflexivity. }
  unfold restart. rewrite reset_eq. cbv zeta. game_simpl. player_simpl.
  repeat match goal with |- _ /\ _ => split end;
    try reflexivity; try (apply Ekey; reflexivity).
  intros Hs Hr. cbn [handle]. unfold onPointerDown.
  rewrite Hs, Hr. reflexivity.
Qed.

(** *** Glyph metrics *)

(** C8.  [measureEmoji] returns the state it was given, so the font
    selected on the context is the one selected before the call.  Where
    the browser reports an ascent that is not a finite number the result
    has the ascent 0.78 * fontPx, and likewise 0.22 * fontPx for the
    descent; finite values are passed on.  The width and the height of
    the result are at least 1. *)
Theorem measureEmoji_scoped_and_total
    (emoji : string) (fontPx : Z) (g : Game.t) :
  let font := (String_of_int fontPx ++ "px " ++ EMOJI_FONT_STACK)%string in
  let m := measureText font emoji in
  let r := fst (measureEmoji emoji fontPx g) in
  let g' := snd (measureEmoji emoji fontPx g) in
  Game.ctx_font g' = Game.ctx_font g
  /\ g' = g
  /\ (Number_isFinite (TextMetrics.actualBoundingBoxAscent m) = false ->
      Measure.ascent r = inject_Z fontPx * 0.78)
  /\ (Number_isFinite (TextMetrics.actualBoundingBoxDescent m) = false ->
      Measure.descent r = inject_Z fontPx * 0.22)
  /\ (forall a, TextMetrics.actualBoundingBoxAscent m = Num a ->
                Measure.ascent r = a)
  /\ (forall d, TextMetrics.actualBoundingBoxDescent m = Num d ->
                Measure.descent r = d)
  /\ 1 <= Measure.w r
  /\ 1 <= Measure.h r.
Proof.
  intros font m r g'.
  assert (Eg : g' = g) by apply measureEmoji_state.
  split; [rewrite Eg; reflexivity|].
  split; [exact Eg|].
  subst r. rewrite measureEmoji_eq. cbn [fst]. unfold measured.
  fold font. fold m. cbn [Measure.ascent Measure.descent Measure.w Measure.h].
  repeat match goal with |- _ /\ _ => split end.
  - destruct (TextMetrics.actualBoundingBoxAscent m);
      cbn [Number_isFinite]; intros H; try discriminate; reflexivity.
  - destruct (TextMetrics.actualBoundingBoxDescent m);
      cbn [Number_isFinite]; intros H; try discriminate; reflexivity.
  - intros a ->. reflexivity.
  - intros d ->. reflexivity.
  - apply Q.le_max_l.
  - apply Q.le_max_l.
Qed.

(** *** Persistence *)

Lemma loadBest_eq (g : Game.t) :
  loadBest g
  = Game.set_best
      (match Storage.getItem storageKey (Game.localStorage g) with
       | Normal item =>
           match Number_ item with Num v => v | _ => 0 end
       | Throw => 0
       end) g.
Proof.
  unfold loadBest.
  destruct (Storage.getItem _ _) as [item|]; [|reflexivity].
  destruct (Number_ item); reflexivity.
Qed.

Lemma init_best (canvas : Canvas.t) (storage : Storage.t)
    (now devicePixelRatio : Q) :
  Game.best (init canvas storage now devicePixelRatio)
  = match Storage.getItem storageKey storage with
    | Normal item => match Number_ item with Num v => v | _ => 0 end
    | Throw => 0
    end.
Proof.
  unfold init. rewrite reset_best. unfold fitCanvas. game_simpl.
  rewrite loadBest_eq. reflexivity.
Qed.

(** C9.  The best score the script starts with is 0 when reading the store
    throws, when the store has no entry under the key, and when the entry
    does not convert to a finite number; a finite entry is taken as it
    is.  A write that throws is caught: losing still completes, with the
    new best score in memory and the store as it was. *)
Theorem persistence_failures_contained
    (canvas : Canvas.t) (storage : Storage.t) (now devicePixelRatio : Q)
    (g : Game.t) :
  let g0 := init canvas storage now devicePixelRatio in
  let floored := Math_floor (Game.score g) in
  (Storage.getItem storageKey storage = Throw -> Game.best g0 = 0)
  /\ (Storage.getItem storageKey storage = Normal None -> Game.best g0 = 0)
  /\ (forall s, Storage.getItem storageKey storage = Normal (Some s) ->
                Number_isFinite (StringToNumber s) = false ->
                Game.best g0 = 0)
  /\ (forall s v, Storage.getItem storageKey storage = Normal (Some s) ->
                  StringToNumber s = Num v ->
                  Game.best g0 = v)
  /\ (Game.best g < inject_Z floored ->
      Storage.setItem storageKey (String_of_int floored)
        (Game.localStorage g) = Throw ->
      Game.running (lose g) = false
      /\ Game.best (lose g) = inject_Z floored
      /\ Game.localStorage (lose g) = Game.localStorage g)
  /\ (inject_Z floored <= Game.best g ->
      Game.best (lose g) = Game.best g
      /\ Game.localStorage (lose g) = Game.localStorage g).
Proof.
  intros g0 floored. subst g0.
  rewrite init_best.
  repeat match goal with |- _ /\ _ => split end.
  - intros ->. reflexivity.
  - intros ->. reflexivity.
  - intros s -> H. cbn [Number_].
    destruct (StringToNumber s); try reflexivity; discriminate.
  - intros s v -> H. cbn [Number_]. rewrite H. reflexivity.
  - intros Hlt Hthrow. apply gt_true_iff in Hlt.
    split; [apply lose_running|].
    rewrite lose_best, lose_localStorage. cbv zeta. fold floored.
    rewrite Hlt, Hthrow. split; reflexivity.
  - intros Hle. apply gt_false_iff in Hle.
    rewrite lose_best, lose_localStorage. cbv zeta. fold floored.
    rewrite Hle. split; reflexivity.
Qed.

(** *** Score and spawn timer over one frame *)

Lemma update_score (dt : Q) (g : Game.t) :
  Game.score (update dt g)
  = if Game.started g then Game.score g + dt * 60 else Game.score g.
Proof.
  unfold update. destruct (Game.started g); cbn [negb]; [|reflexivity].
  rewrite collision_eq.
  destruct (hits _ _); rewrite ?lose_score; apply advance_score.
Qed.

Lemma update_spawnTimer_wait (dt : Q) (g : Game.t) :
  Game.started g = true ->
  0 < Game.spawnTimer g - dt ->
  Game.spawnTimer (update dt g) = Game.spawnTimer g - dt.
Proof.
  intros E H. rewrite (update_spawnTimer dt g E).
  rewrite spawnPacing_wait; [reflexivity | exact H].
Qed.

Lemma update_spawnTimer_spawn (dt : Q) (g : Game.t) :
  Game.started g = true ->
  Game.spawnTimer g - dt <= 0 ->
  0.75 <= Game.spawnTimer (update dt g).
Proof.
  intros E H. rewrite (update_spawnTimer dt g E).
  destruct (spawnPacing_spawn dt (gravity dt (difficulty g)) H)
    as (o & n & _ & _ & ->).
  destruct (base_interval_range _ (Math_random_range n)) as [Hlo _].
  pose proof (Q.le_max_l 0
                ((520 - Game.speed (gravity dt (difficulty g))) / 900)) as Hb.
  unfold Math_max. lra.
Qed.

(** *** Spawning: the geometry of a cactus cluster *)

Lemma floor_of_scaled_draw (r : Q) (k : Z) :
  0 <= r /\ r < 1 -> (0 < k)%Z ->
  (0 <= Math_floor (r * inject_Z k) <= k - 1)%Z.
Proof.
  intros [H0 H1] Hk. unfold Math_floor.
  assert (Hkq : 0 < inject_Z k) by (rewrite Zlt_Qlt in Hk; exact Hk).
  split.
  - change 0%Z with (Qfloor 0). apply Qfloor_resp_le. nra.
  - assert (Hlt : inject_Z (Qfloor (r * inject_Z k)) < inject_Z k).
    { eapply Qle_lt_trans; [apply Qfloor_le|]. nra. }
    rewrite <- Zlt_Qlt in Hlt. lia.
Qed.

Lemma round_of_jittered (base : Z) (r : Q) :
  0 <= r /\ r < 1 ->
  (base - 5 <= Math_round (inject_Z base + (r * 10 - 5)) <= base + 5)%Z.
Proof.
  intros [H0 H1]. unfold Math_round.
  set (x := inject_Z base + (r * 10 - 5) + 0.5).
  split.
  - rewrite <- (Qfloor_Z (base - 5)). apply Qfloor_resp_le.
    unfold x. replace (base - 5)%Z with (base + -5)%Z by lia.
    rewrite inject_Z_plus. change (inject_Z (-5)) with (-5). lra.
  - assert (Hlt : inject_Z (Qfloor x) < inject_Z (base + 6)).
    { eapply Qle_lt_trans; [apply Qfloor_le|].
      unfold x. rewrite inject_Z_plus. change (inject_Z 6) with 6. lra. }
    rewrite <- Zlt_Qlt in Hlt. lia.
Qed.

Lemma measured_bounds (emoji : string) (fontPx : Z) :
  1 <= Measure.w (measured emoji fontPx)
  /\ 1 <= Measure.h (measured emoji fontPx).
Proof. split; apply Q.le_max_l. Qed.

(** What the layout loop adds to its accumulators. *)
Lemma layGlyphs_spec (n : nat) (base gap : Z) (glyphs : list Glyph.t)
    (dx maxH : Q) (g : Game.t) :
  (20 <= base <= 33)%Z ->
  exists (added : list Glyph.t) (maxH' : Q),
    fst (layGlyphs n base gap glyphs dx maxH g)
    = (glyphs ++ added, rowEnd gap dx added, maxH')
    /\ List.length added = n
    /\ inRow gap dx added
    /\ maxH <= maxH'
    /\ Forall (fun gl =>
                 Glyph.emoji gl = CACTUS_EMOJI
                 /\ (18 <= Glyph.size gl <= 38)%Z
                 /\ 10 <= Glyph.w gl
                 /\ 14 <= Glyph.h gl
                 /\ Glyph.h gl <= maxH') added.
Proof.
  intros Hbase. revert glyphs dx maxH g.
  induction n as [|n IH]; intros glyphs dx maxH g.
  - exists [], maxH. cbn [layGlyphs fst rowEnd inRow List.length].
    rewrite app_nil_r. repeat split; try apply Qle_refl. constructor.
  - cbn [layGlyphs]. unfold random. rewrite measureEmoji_eq.
    set (r := Math_random (Game.draws g)).
    set (size := Z.max 18 (Math_round (inject_Z base + (r * 10 - 5)))).
    set (gw := Math_max 10 (Measure.w (measured CACTUS_EMOJI size))).
    set (gh := Math_max 14 (Measure.h (measured CACTUS_EMOJI size))).
    set (gl := Glyph.mk CACTUS_EMOJI size dx gw gh).
    match goal with
    | |- context [layGlyphs n base gap ?gls ?dx1 ?mh1 ?g1] =>
        destruct (IH gls dx1 mh1 g1) as (added & maxH' & E & Hlen & Hrow & Hmax & Hall)
    end.
    exists (gl :: added), maxH'.
    rewrite E, <- app_assoc. cbn [app rowEnd inRow List.length].
    assert (Hgh : gh <= maxH').
    { eapply Qle_trans; [apply Q.le_max_r | exact Hmax]. }
    split; [reflexivity|]. split; [rewrite Hlen; reflexivity|].
    split; [split; [reflexivity | exact Hrow]|].
    split; [eapply Qle_trans; [apply Q.le_max_l | exact Hmax]|].
    constructor; [|exact Hall].
    unfold gl. cbn [Glyph.emoji Glyph.size Glyph.w Glyph.h].
    pose proof (round_of_jittered base r (Math_random_range _)) as Hround.
    split; [reflexivity|]. split; [unfold size; lia|].
    split; [apply Q.le_max_l|]. split; [apply Q.le_max_l | exact Hgh].
Qed.

Lemma inRow_bounds (gap : Z) (start : Q) (glyphs : list Glyph.t) :
  (0 <= gap)%Z ->
  inRow gap start glyphs ->
  Forall (fun gl => 0 <= Glyph.w gl) glyphs ->
  start <= rowEnd gap start glyphs
  /\ Forall (fun gl => start <= Glyph.dx gl
                       /\ Glyph.dx gl + Glyph.w gl + inject_Z gap
                          <= rowEnd gap start glyphs) glyphs.
Proof.
  intros Hgap. rewrite Zle_Qle in Hgap. change (inject_Z 0) with 0 in Hgap.
  revert start.
  induction glyphs as [|gl rest IH]; intros start Hrow Hw;
    cbn [inRow rowEnd] in *.
  - split; [apply Qle_refl | constructor].
  - destruct Hrow as [Hdx Hrest].
    apply Forall_cons_iff in Hw. destruct Hw as [Hw0 Hwrest].
    destruct (IH _ Hrest Hwrest) as [Hend Hall].
    split; [lra|].
    constructor.
    + rewrite Hdx. split; [apply Qle_refl | lra].
    + eapply Forall_impl; [|exact Hall].
      cbv beta. intros a [Ha1 Ha2]. split; [lra | exact Ha2].
Qed.

(** Everything [spawnObstacle] decides, in terms of the obstacle it appends. *)
Lemma spawnObstacle_parts (g : Game.t) :
  exists (o : Obstacle.t) (n : nat) (gap : Z) (maxH : Q),
    spawnObstacle g
    = Game.set_obstacles (Game.obstacles g ++ [o]) (Game.set_draws n g)
    /\ n = (Game.draws g + 3 + List.length (Obstacle.glyphs o))%nat
    /\ Obstacle.x o = world_w g + 10
    /\ Obstacle.y o = groundY g - Obstacle.h o
    /\ (2 <= gap <= 4)%Z
    /\ (1 <= List.length (Obstacle.glyphs o) <= 3)%nat
    /\ inRow gap 0 (Obstacle.glyphs o)
    /\ Obstacle.w o
       = Math_max 14 (rowEnd gap 0 (Obstacle.glyphs o) - inject_Z gap)
    /\ Obstacle.h o = Math_max 16 maxH
    /\ Forall (fun gl =>
                 Glyph.emoji gl = CACTUS_EMOJI
                 /\ (18 <= Glyph.size gl <= 38)%Z
                 /\ 10 <= Glyph.w gl
                 /\ 14 <= Glyph.h gl
                 /\ Glyph.h gl <= maxH) (Obstacle.glyphs o).
Proof.
  unfold spawnObstacle, random. game_simpl.
  set (r1 := Math_random (Game.draws g)).
  set (r2 := Math_random (S (Game.draws g))).
  set (r3 := Math_random (S (S (Game.draws g)))).
  pose proof (floor_of_scaled_draw r1 3 (Math_random_range _) eq_refl) as H1.
  pose proof (floor_of_scaled_draw r2 14 (Math_random_range _) eq_refl) as H2.
  pose proof (floor_of_scaled_draw r3 3 (Math_random_range _) eq_refl) as H3.
  change (inject_Z 3) with 3 in H1, H3. change (inject_Z 14) with 14 in H2.
  set (count := (1 + Math_floor (r1 * 3))%Z) in *.
  set (base := (20 + Math_floor (r2 * 14))%Z) in *.
  set (gap := (2 + Math_floor (r3 * 3))%Z) in *.
  assert (Hbase : (20 <= base <= 33)%Z) by (unfold base; lia).
  match goal with
  | |- context [layGlyphs ?k ?b ?gp ?gl ?dx ?mh ?g0] =>
      pose proof (layGlyphs_state k b gp gl dx mh g0) as Hs;
      destruct (layGlyphs_spec k b gp gl dx mh g0 Hbase)
        as (added & maxH' & E & Hlen & Hrow & _ & Hall);
      destruct (layGlyphs k b gp gl dx mh g0) as [[[glyphs dx'] maxH''] g']
  end.
  cbn [fst snd] in E, Hs. cbn [app] in E.
  injection E as -> -> ->. subst g'. game_simpl.
  eexists. exists (Z.to_nat count + S (S (S (Game.draws g))))%nat, gap, maxH'.
  split; [reflexivity|].
  cbn [Obstacle.x Obstacle.y Obstacle.w Obstacle.h Obstacle.glyphs].
  split; [rewrite Hlen; lia|].
  split; [reflexivity|]. split; [reflexivity|].
  split; [unfold gap; lia|].
  split; [rewrite Hlen; unfold count; lia|].
  split; [exact Hrow|].
  split; [reflexivity|]. split; [reflexivity | exact Hall].
Qed.

(** The raw facts put every glyph inside the box of the obstacle. *)
Lemma parts_wellFormed (o : Obstacle.t) (gap : Z) (maxH : Q) :
  (2 <= gap <= 4)%Z ->
  (1 <= List.length (Obstacle.glyphs o) <= 3)%nat ->
  inRow gap 0 (Obstacle.glyphs o) ->
  Obstacle.w o
  = Math_max 14 (rowEnd gap 0 (Obstacle.glyphs o) - inject_Z gap) ->
  Obstacle.h o = Math_max 16 maxH ->
  Forall (fun gl =>
            Glyph.emoji gl = CACTUS_EMOJI
            /\ (18 <= Glyph.size gl <= 38)%Z
            /\ 10 <= Glyph.w gl
            /\ 14 <= Glyph.h gl
            /\ Glyph.h gl <= maxH) (Obstacle.glyphs o) ->
  wellFormed o.
Proof.
  intros Hgap Hlen Hrow Hw Hh Hall.
  assert (Hwpos : Forall (fun gl => 0 <= Glyph.w gl) (Obstacle.glyphs o)).
  { eapply Forall_impl; [|exact Hall]. cbv beta.
    intros a (_ & _ & Ha & _). lra. }
  destruct (inRow_bounds gap 0 _ ltac:(lia) Hrow Hwpos) as [_ Hin].
  pose proof (Q.le_max_r 14 (rowEnd gap 0 (Obstacle.glyphs o) - inject_Z gap))
    as Hwr.
  pose proof (Q.le_max_r 16 maxH) as Hhr.
  unfold wellFormed.
  split; [rewrite Hw; apply Q.le_max_l|].
  split; [rewrite Hh; apply Q.le_max_l|].
  split; [exact Hlen|].
  rewrite Forall_forall in *. intros gl Hgl.
  destruct (Hall gl Hgl) as (He & Hsize & Hgw & Hgh & Hmax).
  destruct (Hin gl Hgl) as [Hdx Hend].
  unfold glyphFits. rewrite Hw, Hh. unfold Math_max.
  repeat split; try assumption; try lia; lra.
Qed.

(** X1.  The obstacle [spawnObstacle] appends stands 10 pixels right of the
    viewport with its lower edge on the ground line, is at least 14 wide
    and 16 high, and has one to three cactus glyphs of font size 18 to 38.
    The glyphs stand in a row from offset 0 with the same gap of 2 to 4
    pixels after each, and all of them lie inside the box of the
    obstacle.  Nothing else changes but the count of random draws, which
    grows by three and one a glyph. *)
Theorem spawned_cluster_geometry (g : Game.t) :
  exists (o : Obstacle.t) (gap : Z),
    Game.obstacles (spawnObstacle g) = Game.obstacles g ++ [o]
    /\ Game.set_obstacles (Game.obstacles g)
         (Game.set_draws (Game.draws g) (spawnObstacle g)) = g
    /\ Game.draws (spawnObstacle g)
       = (Game.draws g + 3 + List.length (Obstacle.glyphs o))%nat
    /\ Obstacle.x o = world_w g + 10
    /\ Obstacle.y o + Obstacle.h o == groundY g
    /\ (2 <= gap <= 4)%Z
    /\ inRow gap 0 (Obstacle.glyphs o)
    /\ wellFormed o.
Proof.
  destruct (spawnObstacle_parts g)
    as (o & n & gap & maxH & E & Hn & Hx & Hy & Hgap & Hlen & Hrow & Hw & Hh
        & Hall).
  exists o, gap. rewrite E. game_simpl.
  split; [reflexivity|].
  split; [unfold Game.set_obstacles, Game.set_draws; game_simpl;
          apply game_eta|].
  split; [exact Hn|].
  split; [exact Hx|]. split; [rewrite Hy; ring|].
  split; [exact Hgap|]. split; [exact Hrow|].
  exact (parts_wellFormed o gap maxH Hgap Hlen Hrow Hw Hh Hall).
Qed.

(** *** The player within a tick *)

Lemma spawnPacing_player dt g :
  Game.player (spawnPacing dt g) = Game.player g.
Proof. frame. Qed.

Lemma spawnPacing_canvas dt g :
  Game.canvas (spawnPacing dt g) = Game.canvas g.
Proof. frame. Qed.

Lemma spawnPacing_lastCssH dt g :
  Game.lastCssH (spawnPacing dt g) = Game.lastCssH g.
Proof. frame. Qed.

Lemma spawnPacing_running dt g :
  Game.running (spawnPacing dt g) = Game.running g.
Proof. frame. Qed.

Lemma spawnPacing_started dt g :
  Game.started (spawnPacing dt g) = Game.started g.
Proof. frame. Qed.

Lemma lose_player g : Game.player (lose g) = Game.player g.
Proof. frame. Qed.

Lemma lose_started g : Game.started (lose g) = Game.started g.
Proof. frame. Qed.

Lemma lose_canvas g : Game.canvas (lose g) = Game.canvas g.
Proof. frame. Qed.

Lemma lose_lastCssH g : Game.lastCssH (lose g) = Game.lastCssH g.
Proof. frame. Qed.

#[local] Hint Rewrite spawnPacing_player spawnPacing_canvas
  spawnPacing_lastCssH spawnPacing_running spawnPacing_started : frame.

Lemma advance_player dt g :
  Game.player (advance dt g) = Game.player (gravity dt (difficulty g)).
Proof. advance_frame. Qed.

Lemma advance_running dt g : Game.running (advance dt g) = Game.running g.
Proof. advance_frame. Qed.

Lemma advance_started dt g : Game.started (advance dt g) = Game.started g.
Proof. advance_frame. Qed.

Lemma advance_canvas dt g : Game.canvas (advance dt g) = Game.canvas g.
Proof. advance_frame. Qed.

Lemma advance_lastCssH dt g : Game.lastCssH (advance dt g) = Game.lastCssH g.
Proof. advance_frame. Qed.

Lemma update_player dt g :
  Game.started g = true ->
  Game.player (update dt g) = Game.player (gravity dt (difficulty g)).
Proof.
  intros E. rewrite (update_started dt g E), collision_eq.
  destruct (hits _ _); rewrite ?lose_player; apply advance_player.
Qed.

Lemma update_groundY dt g : groundY (update dt g) = groundY g.
Proof.
  unfold groundY, world_h, update.
  destruct (Game.started g); cbn [negb]; [|reflexivity].
  rewrite collision_eq.
  destruct (hits _ _);
    rewrite ?lose_canvas, ?lose_lastCssH, advance_canvas, advance_lastCssH;
    reflexivity.
Qed.

Lemma ge_true_iff (a b : Q) : (a >=? b) = true <-> b <= a.
Proof. apply Qle_bool_iff. Qed.

Lemma ge_false_iff (a b : Q) : (a >=? b) = false <-> a < b.
Proof.
  rewrite <- not_true_iff_false, ge_true_iff.
  split; [apply Qnot_le_lt | apply Qlt_not_le].
Qed.

(** X2.  A started tick moves the player by one step of gravity: the
    velocity grows by 1200 * dt, the position by the new velocity times
    dt.  If the lower edge then reaches the ground line the player is put
    on it, at rest and grounded; otherwise the grounded flag stays as it
    was.  Either way the lower edge is never below the ground line after
    the tick, and the box keeps its place in x and its size.  A player
    standing on the ground line, not moving upwards, stays exactly on
    it. *)
Theorem tick_integrates_gravity_and_lands (dt : Q) (g : Game.t) :
  Game.started g = true ->
  let p := Game.player g in
  let p' := Game.player (update dt g) in
  let gy := groundY g in
  let vy1 := Player.vy p + 1200 * dt in
  let y1 := Player.y p + vy1 * dt in
  (gy <= y1 + Player.h p ->
   Player.y p' = gy - Player.h p /\ Player.vy p' = 0
   /\ Player.onGround p' = true)
  /\ (y1 + Player.h p < gy ->
      Player.y p' = y1 /\ Player.vy p' = vy1
      /\ Player.onGround p' = Player.onGround p)
  /\ Player.y p' + Player.h p' <= groundY (update dt g)
  /\ Player.x p' = Player.x p
  /\ Player.w p' = Player.w p
  /\ Player.h p' = Player.h p
  /\ (0 <= dt -> 0 <= Player.vy p -> gy <= Player.y p + Player.h p ->
      Player.y p' + Player.h p' == gy /\ Player.vy p' = 0
      /\ Player.onGround p' = true).
Proof.
  intros E p p' gy vy1 y1.
  assert (Ep : p' = Game.player (gravity dt (difficulty g)))
    by apply (update_player dt g E).
  rewrite update_groundY. fold gy.
  unfold gravity, difficulty in Ep. game_simpl. player_simpl.
  change (groundY (Game.set_speed (speedFor (Game.score g)) g)) with gy in Ep.
  fold p in Ep. fold vy1 in Ep. fold y1 in Ep.
  assert (Hland : gy <= y1 + Player.h p ->
                  Player.y p' = gy - Player.h p /\ Player.vy p' = 0
                  /\ Player.onGround p' = true
                  /\ Player.x p' = Player.x p /\ Player.w p' = Player.w p
                  /\ Player.h p' = Player.h p).
  { intros H. apply ge_true_iff in H. rewrite H in Ep. rewrite Ep.
    repeat split. }
  assert (Hfly : y1 + Player.h p < gy ->
                 Player.y p' = y1 /\ Player.vy p' = vy1
                 /\ Player.onGround p' = Player.onGround p
                 /\ Player.x p' = Player.x p /\ Player.w p' = Player.w p
                 /\ Player.h p' = Player.h p).
  { intros H. apply ge_false_iff in H. rewrite H in Ep. rewrite Ep.
    repeat split. }
  clear Ep.
  split; [intros H; destruct (Hland H) as (? & ? & ? & _); auto|].
  split; [intros H; destruct (Hfly H) as (? & ? & ? & _); auto|].
  destruct (Qlt_le_dec (y1 + Player.h p) gy) as [H | H].
  - destruct (Hfly H) as (Hy & Hvy & Hog & Hx & Hw & Hh).
    rewrite Hy, Hx, Hw, Hh.
    split; [lra|]. do 3 (split; [reflexivity|]).
    intros Hdt Hv Hon. exfalso. unfold y1, vy1 in H. nra.
  - destruct (Hland H) as (Hy & Hvy & Hog & Hx & Hw & Hh).
    rewrite Hy, Hx, Hw, Hh.
    split; [lra|]. do 3 (split; [reflexivity|]).
    intros _ _ _. split; [ring|]. split; assumption.
Qed.

(** *** Input *)

Lemma set_player_same (g : Game.t) : Game.set_player (Game.player g) g = g.
Proof. destruct g; reflexivity. Qed.

Lemma jump_key_is_no_restart_key (k : string) :
  isJumpKey k = true -> isRestartKey k = false.
Proof.
  unfold isJumpKey, isRestartKey. rewrite !orb_true_iff, !String.eqb_eq.
  intros [[[-> | ->] | ->] | ->]; reflexivity.
Qed.

Lemma onJumpIntent_lost (g : Game.t) :
  Game.started g = true -> Game.running g = false -> onJumpIntent g = g.
Proof.
  intros Hs Hr. unfold onJumpIntent, start. rewrite Hs. cbn [negb].
  rewrite Hr. reflexivity.
Qed.

Lemma onJumpIntent_airborne (g : Game.t) :
  Game.started g = true -> Player.onGround (Game.player g) = false ->
  onJumpIntent g = g.
Proof.
  intros Hs Ha. unfold onJumpIntent, start. rewrite Hs. cbn [negb].
  destruct (Game.running g); cbn [negb]; [|reflexivity].
  unfold Player.jump. rewrite Ha. cbn [negb]. apply set_player_same.
Qed.

(** X3.  How input is routed.  No key both jumps and restarts.  A key that
    is neither leaves the state as it is; so does a jump key once the
    session is lost, and while the player is in the air.  A jump key for a
    grounded player of a running session starts the session if need be
    and gives the player the jump velocity, changing nothing else.  A
    pointer press before the start only starts the session, without a
    jump; in a running session it is the jump key. *)
Theorem input_routed_by_state (k : string) (g : Game.t) :
  (isJumpKey k = true -> isRestartKey k = false)
  /\ (isJumpKey k = false -> isRestartKey k = false ->
      handle (KeyDown k) g = g)
  /\ (isJumpKey k = true -> Game.started g = true ->
      Game.running g = false ->
      handle (KeyDown k) g = g)
  /\ (isJumpKey k = true -> Game.started g = true ->
      Player.onGround (Game.player g) = false ->
      handle (KeyDown k) g = g)
  /\ (isJumpKey k = true -> Game.running g = true ->
      Player.onGround (Game.player g) = true ->
      let g' := handle (KeyDown k) g in
      Game.started g' = true
      /\ Player.vy (Game.player g') = -460
      /\ Player.onGround (Game.player g') = false
      /\ Player.y (Game.player g') = Player.y (Game.player g)
      /\ Game.set_started (Game.started g)
           (Game.set_player (Game.player g) g') = g)
  /\ (Game.started g = false ->
      handle PointerDown g = Game.set_started true g)
  /\ (Game.started g = true -> Game.running g = true ->
      handle PointerDown g = handle (KeyDown " ") g).
Proof.
  split; [apply jump_key_is_no_restart_key|].
  split.
  { intros Hj Hr. cbn [handle]. unfold onKeyDown. rewrite Hj, Hr.
    reflexivity. }
  split.
  { intros Hj Hs Hrun. cbn [handle]. unfold onKeyDown.
    rewrite Hj, (jump_key_is_no_restart_key k Hj).
    apply onJumpIntent_lost; assumption. }
  split.
  { intros Hj Hs Ha. cbn [handle]. unfold onKeyDown.
    rewrite Hj, (jump_key_is_no_restart_key k Hj).
    apply onJumpIntent_airborne; assumption. }
  split.
  { intros Hj Hrun Hon g'. subst g'. cbn [handle]. unfold onKeyDown.
    rewrite Hj, (jump_key_is_no_restart_key k Hj).
    unfold onJumpIntent, start, Player.jump.
    destruct (Game.started g) eqn:Hs; cbn [negb]; game_simpl;
      rewrite Hrun, Hon; cbn [negb]; game_simpl; player_simpl;
      (repeat (split; [first [reflexivity | assumption]|]));
      destruct g; cbn in Hs; subst; reflexivity. }
  split.
  { intros Hs. cbn [handle]. unfold onPointerDown. rewrite Hs.
    reflexivity. }
  intros Hs Hrun. cbn [handle]. unfold onPointerDown, onKeyDown.
  rewrite Hs, Hrun. reflexivity.
Qed.

(** *** The two flags of a session *)

Lemma reset_running (g : Game.t) : Game.running (reset g) = true.
Proof. rewrite reset_eq. reflexivity. Qed.

Lemma reset_started (g : Game.t) : Game.started (reset g) = false.
Proof. rewrite reset_eq. reflexivity. Qed.

Lemma running_set_started (b : bool) (g : Game.t) :
  Game.running (Game.set_started b g) = Game.running g.
Proof. reflexivity. Qed.

Lemma restart_running (g : Game.t) : Game.running (restart g) = true.
Proof. unfold restart. rewrite running_set_started. apply reset_running. Qed.

Lemma restart_started (g : Game.t) : Game.started (restart g) = true.
Proof. reflexivity. Qed.

Lemma update_started_flag (dt : Q) (g : Game.t) :
  Game.started (update dt g) = Game.started g.
Proof.
  unfold update. destruct (Game.started g) eqn:E; cbn [negb];
    [|exact E].
  rewrite collision_eq.
  destruct (hits _ _); rewrite ?lose_started, advance_started; exact E.
Qed.

Lemma update_running_idle (dt : Q) (g : Game.t) :
  Game.started g = false -> Game.running (update dt g) = Game.running g.
Proof. intros E. unfold update. rewrite E. reflexivity. Qed.

Lemma onJumpIntent_running (g : Game.t) :
  Game.running (onJumpIntent g) = Game.running g.
Proof.
  unfold onJumpIntent, start.
  destruct (Game.started g); cbn [negb]; game_simpl;
    destruct (Game.running g) eqn:Hr; cbn [negb]; game_simpl;
    first [reflexivity | exact Hr].
Qed.

Lemma onJumpIntent_started (g : Game.t) :
  Game.started (onJumpIntent g) = true.
Proof.
  unfold onJumpIntent, start.
  destruct (Game.started g) eqn:Hs; cbn [negb]; game_simpl;
    destruct (Game.running g); cbn [negb]; game_simpl;
    first [reflexivity | exact Hs].
Qed.

Lemma handle_started (e : Event) (g : Game.t) :
  Game.started g = true -> Game.started (handle e g) = true.
Proof.
  intros Hs. destruct e; cbn [handle]; try exact Hs.
  - unfold onKeyDown.
    destruct (isJumpKey key), (isRestartKey key);
      rewrite ?restart_started, ?onJumpIntent_started;
      first [reflexivity | exact Hs].
  - unfold onPointerDown. rewrite Hs. cbn [negb].
    destruct (Game.running g); cbn [negb];
      rewrite ?restart_started, ?onJumpIntent_started; reflexivity.
  - apply restart_started.
  - rewrite loop_eq. unfold draw. game_simpl.
    destruct (Game.running g); [|exact Hs].
    rewrite update_started_flag. exact Hs.
Qed.

(** X4.  The flags of a session.  Once started, a session stays started
    whatever events follow.  An event that takes [running] from true to
    false is a frame of a started session; an event that takes it from
    false to true is a restart, and leaves exactly the state [restart]
    gives. *)
Theorem session_ends_in_a_frame_and_resumes_by_restart
    (e : Event) (es : list Event) (g : Game.t) :
  (Game.started g = true -> Game.started (run es g) = true)
  /\ (Game.running g = true -> Game.running (handle e g) = false ->
      exists now, e = Frame now /\ Game.started g = true)
  /\ (Game.running g = false -> Game.running (handle e g) = true ->
      handle e g = restart g).
Proof.
  split; [|split].
  - unfold run. revert g.
    induction es as [|e' es IH]; intros g Hs; cbn [fold_left];
      [exact Hs|].
    apply IH. apply handle_started. exact Hs.
  - intros Hr Hr'. destruct e; cbn [handle] in Hr'.
    + exfalso. unfold onKeyDown in Hr'.
      destruct (isJumpKey key), (isRestartKey key);
        rewrite ?restart_running, ?onJumpIntent_running in Hr'; congruence.
    + exfalso. unfold onPointerDown in Hr'.
      destruct (Game.started g); cbn [negb] in Hr'; game_simpl;
        [|congruence].
      rewrite Hr in Hr'. cbn [negb] in Hr'.
      rewrite onJumpIntent_running in Hr'. congruence.
    + exfalso. rewrite restart_running in Hr'. discriminate.
    + game_simpl. congruence.
    + game_simpl. congruence.
    + exfalso. unfold onResize, fitCanvas in Hr'. game_simpl. congruence.
    + exists now. split; [reflexivity|].
      rewrite loop_eq in Hr'. unfold draw in Hr'. game_simpl.
      rewrite Hr in Hr'.
      destruct (Game.started g) eqn:Hs; [reflexivity|].
      rewrite update_running_idle in Hr' by exact Hs.
      game_simpl. congruence.
  - intros Hr Hr'. destruct e; cbn [handle] in *.
    + unfold onKeyDown in *.
      destruct (isJumpKey key) eqn:Hj.
      * rewrite (jump_key_is_no_restart_key key Hj) in *.
        rewrite onJumpIntent_running in Hr'. congruence.
      * destruct (isRestartKey key); [reflexivity | congruence].
    + unfold onPointerDown in *.
      destruct (Game.started g); cbn [negb] in *; game_simpl;
        [|congruence].
      rewrite Hr in *. reflexivity.
    + reflexivity.
    + game_simpl. congruence.
    + game_simpl. congruence.
    + unfold onResize, fitCanvas in Hr'. game_simpl. congruence.
    + rewrite loop_eq in Hr'. unfold draw in Hr'. game_simpl.
      rewrite Hr in Hr'. game_simpl. congruence.
Qed.

(** *** Scrolling and culling *)

(** X5.  After the "Move obstacles" block the list holds exactly the
    obstacles of before, each shifted left by speed * dt and otherwise as
    it was, whose right edge is still right of x = -30; they are in the
    order they were in. *)
Theorem scroll_shifts_and_culls
    (speed dt : Q) (os os' : list Obstacle.t) (o' : Obstacle.t) :
  (In o' (scrollObstacles speed dt os) <->
   exists o, In o os
             /\ o' = Obstacle.mk (Obstacle.x o - speed * dt) (Obstacle.y o)
                       (Obstacle.w o) (Obstacle.h o) (Obstacle.glyphs o)
             /\ -30 < Obstacle.x o' + Obstacle.w o')
  /\ scrollObstacles speed dt (os ++ os')
     = scrollObstacles speed dt os ++ scrollObstacles speed dt os'
  /\ (List.length (scrollObstacles speed dt os) <= List.length os)%nat.
Proof.
  split; [|split].
  - unfold scrollObstacles. rewrite filter_In, in_map_iff, gt_true_iff.
    split.
    + intros [(o & <- & Hin) Hedge]. exists o. auto.
    + intros (o & Hin & -> & Hedge). split; [|exact Hedge].
      exists o. split; [reflexivity | exact Hin].
  - unfold scrollObstacles. rewrite map_app. apply filter_app.
  - apply scrollObstacles_length.
Qed.

(** *** Sparks *)

Lemma burst_ranges (c : nat) (x y : Q) (d : nat) :
  Forall (fun s => 1.5 <= Spark.r s /\ Spark.r s < 3.7
                   /\ 120 <= Spark.spd s /\ Spark.spd s < 320)
    (burst c x y d).
Proof.
  revert d. induction c as [|c IH]; intro d; cbn [burst]; constructor;
    [|apply IH].
  cbn [Spark.r Spark.spd].
  destruct (Math_random_range d) as [H0 H1].
  destruct (Math_random_range (S d)) as [H2 H3].
  repeat split; lra.
Qed.

(** X6.  [addSpark] clamps the number of sparks it adds to 6..16 whatever
    count it is given; each has the radius 1.5 + 2.2 r and the speed
    120 + 200 r' for two random draws, so a radius in [1.5, 3.7) and a
    speed in [120, 320), and lies at the point asked for.  With reduced
    motion asked for it changes nothing, and draws no random numbers. *)
Theorem addSpark_clamps_count (x y : Q) (count : Z) (g : Game.t) :
  (prefersReducedMotion = true -> addSpark x y count g = g)
  /\ (prefersReducedMotion = false ->
      exists added : list Spark.t,
        addSpark x y count g
        = Game.set_sparks (Game.sparks g ++ added)
            (Game.set_draws (2 * List.length added + Game.draws g) g)
        /\ Z.of_nat (List.length added) = Z.max 6 (Z.min 16 count)
        /\ (6 <= List.length added <= 16)%nat
        /\ Forall (fun s => Spark.x s = x /\ Spark.y s = y) added
        /\ Forall (fun s => 1.5 <= Spark.r s /\ Spark.r s < 3.7
                            /\ 120 <= Spark.spd s /\ Spark.spd s < 320)
             added).
Proof.
  unfold addSpark. split; intros ->; [reflexivity|].
  set (c := Z.to_nat (Z.max 6 (Z.min 16 count))).
  exists (burst c x y (Game.draws g)).
  rewrite pushSparks_eq, burst_length.
  split; [reflexivity|].
  split; [unfold c; lia|]. split; [unfold c; lia|].
  split; [apply burst_position | apply burst_ranges].
Qed.

(** X7.  The "Sparks drift" block: a spark that is still there afterwards
    has a radius above 0.25; it is a spark of before moved left by
    (speed + spd) * dt, with its radius scaled by 1 - 1.8 dt and its own
    speed unchanged.  No spark is added, and for a delta in [0, 0.033] no
    radius of a spark of positive radius grows. *)
Theorem drift_shrinks_and_culls (dt : Q) (g : Game.t) (s' : Spark.t) :
  let g' := driftSparks dt g in
  (In s' (Game.sparks g') ->
   0.25 < Spark.r s'
   /\ exists s, In s (Game.sparks g)
                /\ Spark.x s' = Spark.x s - (Game.speed g + Spark.spd s) * dt
                /\ Spark.r s' = Spark.r s * (1 - 1.8 * dt)
                /\ Spark.spd s' = Spark.spd s
                /\ (0 <= dt -> dt <= 0.033 -> 0 <= Spark.r s ->
                    Spark.r s' <= Spark.r s))
  /\ (List.length (Game.sparks g') <= List.length (Game.sparks g))%nat
  /\ Game.set_sparks (Game.sparks g) g' = g.
Proof.
  intros g'. subst g'. unfold driftSparks. game_simpl.
  split; [|split].
  - rewrite filter_In, in_map_iff, gt_true_iff.
    intros [(s & <- & Hin) Hr]. split; [exact Hr|].
    exists s. unfold driftSpark. cbn [Spark.x Spark.r Spark.spd].
    repeat split; try assumption. nra.
  - rewrite <- (length_map (driftSpark (Game.speed g) dt) (Game.sparks g)).
    apply filter_length_le.
  - unfold Game.set_sparks. game_simpl. apply game_eta.
Qed.

(** *** The collision test as a relation *)


(** *** Reset *)

Lemma Math_max3_ge (a b c : Q) :
  a <= Math_max3 a b c /\ b <= Math_max3 a b c /\ c <= Math_max3 a b c.
Proof.
  unfold Math_max3.
  pose proof (Q.le_max_l a b). pose proof (Q.le_max_r a b).
  pose proof (Q.le_max_l (Qmax a b) c). pose proof (Q.le_max_r (Qmax a b) c).
  repeat split; lra.
Qed.

Lemma reset_set_started (b : bool) (g : Game.t) :
  reset (Game.set_started b g) = reset g.
Proof. rewrite !reset_eq. reflexivity. Qed.

(** X9.  [reset] gives the player a box that depends on the font size and
    the browser only, not on the state: at least 18 wide and 22 high, and
    at least 0.92 times the measured width and height of each of the
    three faces.  It keeps the player's x, the best score, the store, the
    canvas, the selected font, the remembered timestamp and the count of
    random draws.  A second [reset] changes nothing, nor does a second
    [restart]. *)
Theorem reset_is_idempotent (g : Game.t) (face : string) :
  let p := Game.player (reset g) in
  let m := measured face (Player.fontPx (Game.player g)) in
  reset (reset g) = reset g
  /\ restart (restart g) = restart g
  /\ 18 <= Player.w p
  /\ 22 <= Player.h p
  /\ (face = PLAYER_EMOJI_IDLE \/ face = PLAYER_EMOJI_RUN
      \/ face = PLAYER_EMOJI_LOSE ->
      Measure.w m * 0.92 <= Player.w p /\ Measure.h m * 0.92 <= Player.h p)
  /\ (forall g2, Player.fontPx (Game.player g2) = Player.fontPx (Game.player g) ->
                 Player.w (Game.player (reset g2)) = Player.w p
                 /\ Player.h (Game.player (reset g2)) = Player.h p)
  /\ Player.x p = Player.x (Game.player g)
  /\ Player.fontPx p = Player.fontPx (Game.player g)
  /\ Game.best (reset g) = Game.best g
  /\ Game.localStorage (reset g) = Game.localStorage g
  /\ Game.canvas (reset g) = Game.canvas g
  /\ Game.ctx_font (reset g) = Game.ctx_font g
  /\ Game.last (reset g) = Game.last g
  /\ Game.draws (reset g) = Game.draws g.
Proof.
  intros p m. subst p m.
  assert (Eidem : reset (reset g) = reset g).
  { rewrite (reset_eq (reset g)). cbv zeta.
    rewrite (reset_eq g). cbv zeta. game_simpl. player_simpl.
    unfold groundY, world_h. game_simpl. reflexivity. }
  split; [exact Eidem|].
  split.
  { unfold restart. rewrite reset_set_started, Eidem. reflexivity. }
  rewrite (reset_eq g). cbv zeta. game_simpl. player_simpl.
  split; [apply Q.le_max_l|]. split; [apply Q.le_max_l|].
  split.
  { set (f := Player.fontPx (Game.player g)).
    pose proof (Math_max3_ge (Measure.w (measured PLAYER_EMOJI_IDLE f))
                  (Measure.w (measured PLAYER_EMOJI_RUN f))
                  (Measure.w (measured PLAYER_EMOJI_LOSE f))) as (W1 & W2 & W3).
    pose proof (Math_max3_ge (Measure.h (measured PLAYER_EMOJI_IDLE f))
                  (Measure.h (measured PLAYER_EMOJI_RUN f))
                  (Measure.h (measured PLAYER_EMOJI_LOSE f))) as (H1 & H2 & H3).
    match goal with
    | |- _ -> _ <= Math_max 18 ?a /\ _ <= Math_max 22 ?b =>
        pose proof (Q.le_max_r 18 a) as Hw;
        pose proof (Q.le_max_r 22 b) as Hh
    end.
    unfold Math_max.
    intros [-> | [-> | ->]]; split; lra. }
  split.
  { intros g2 E. rewrite (reset_eq g2). cbv zeta. game_simpl. player_simpl.
    rewrite E. split; reflexivity. }
  repeat split.
Qed.

(** *** The viewport *)

Lemma or_else_cases (a b : Q) :
  (a == 0 /\ or_else a b = b) \/ (~ a == 0 /\ or_else a b = a).
Proof.
  unfold or_else. destruct (Qeq_bool a 0) eqn:E.
  - left. split; [apply Qeq_bool_iff, E | reflexivity].
  - right. split; [|reflexivity].
    intros H. apply Qeq_bool_iff in H. congruence.
Qed.

Lemma or_else_nonzero (a b : Q) : ~ b == 0 -> ~ or_else a b == 0.
Proof.
  intros Hb. destruct (or_else_cases a b) as [[_ ->] | [Ha ->]]; assumption.
Qed.

(** X11.  The size of the world is never 0: [world.w()] is the client width
    of the canvas, or 640 when that is 0; [world.h()] is the height of the
    bounding rectangle when that is a finite number above 0, and else the
    height [fitCanvas] last computed, or 200 when that is 0.  The ground
    line lies 22 above the lower edge. *)
Theorem world_size_never_zero (g : Game.t) :
  let c := Game.canvas g in
  ~ world_w g == 0
  /\ ~ world_h g == 0
  /\ (~ Canvas.clientWidth c == 0 -> world_w g = Canvas.clientWidth c)
  /\ (Canvas.clientWidth c == 0 -> world_w g = 640)
  /\ (forall rectH, Canvas.rectHeight c = Num rectH -> 0 < rectH ->
                    world_h g = rectH)
  /\ ((Number_isFinite (Canvas.rectHeight c) = false
       \/ exists rectH, Canvas.rectHeight c = Num rectH /\ rectH <= 0) ->
      world_h g = or_else (Game.lastCssH g) 200)
  /\ groundY g = world_h g - 22.
Proof.
  intro c. unfold world_w, world_h, groundY. fold c.
  assert (H640 : ~ 640 == 0) by discriminate.
  assert (H200 : ~ 200 == 0) by discriminate.
  split; [apply or_else_nonzero, H640|].
  split.
  { destruct (Canvas.rectHeight c) as [rectH| | | |];
      try (apply or_else_nonzero, H200).
    destruct (rectH >? 0) eqn:E; [|apply or_else_nonzero, H200].
    apply gt_true_iff in E. intros H. rewrite H in E.
    revert E. apply Qlt_irrefl. }
  split.
  { intros H. destruct (or_else_cases (Canvas.clientWidth c) 640)
      as [[H0 _] | [_ E]]; [contradiction | exact E]. }
  split.
  { intros H. destruct (or_else_cases (Canvas.clientWidth c) 640)
      as [[_ E] | [H0 _]]; [exact E | contradiction]. }
  split.
  { intros rectH -> Hpos. apply gt_true_iff in Hpos. rewrite Hpos.
    reflexivity. }
  split; [|reflexivity].
  intros [H | (rectH & -> & Hle)].
  - destruct (Canvas.rectHeight c); try reflexivity. discriminate.
  - apply gt_false_iff in Hle. rewrite Hle. reflexivity.
Qed.

(** *** Resizing *)

Lemma dpr_clamped (devicePixelRatio : Q) :
  let dpr := Math_max 1 (Math_min 2 (or_else devicePixelRatio 1)) in
  1 <= dpr /\ dpr <= 2.
Proof.
  intro dpr. subst dpr. unfold Math_max, Math_min.
  split; [apply Q.le_max_l|].
  apply Q.max_lub; [discriminate | apply Q.le_min_l].
Qed.

Lemma groundY_same (g1 g2 : Game.t) :
  Game.canvas g1 = Game.canvas g2 ->
  Game.lastCssH g1 = Game.lastCssH g2 ->
  groundY g1 = groundY g2.
Proof. intros Ec El. unfold groundY, world_h. rewrite Ec, El. reflexivity. Qed.

Lemma or_else_nz (a b : Q) : ~ a == 0 -> or_else a b = a.
Proof.
  intros H. destruct (or_else_cases a b) as [[H0 _] | [_ E]];
    [contradiction | exact E].
Qed.

Lemma fitCanvas_idem (devicePixelRatio : Q) (g : Game.t) :
  ~ Canvas.clientWidth (Game.canvas g) == 0 ->
  fitCanvas devicePixelRatio (fitCanvas devicePixelRatio g)
  = fitCanvas devicePixelRatio g.
Proof.
  intros H. unfold fitCanvas. game_simpl.
  cbn [Canvas.width Canvas.height Canvas.clientWidth Canvas.rectHeight].
  rewrite !(or_else_nz (Canvas.clientWidth (Game.canvas g)) _ H).
  reflexivity.
Qed.

Lemma fitCanvas_set_player (devicePixelRatio : Q) (P : Player.t)
    (g : Game.t) :
  fitCanvas devicePixelRatio (Game.set_player P g)
  = Game.set_player P (fitCanvas devicePixelRatio g).
Proof. reflexivity. Qed.

Lemma onResize_idem (devicePixelRatio : Q) (g : Game.t) :
  ~ Canvas.clientWidth (Game.canvas g) == 0 ->
  onResize devicePixelRatio (onResize devicePixelRatio g)
  = onResize devicePixelRatio g.
Proof.
  intros H. unfold onResize at 1.
  assert (E : fitCanvas devicePixelRatio (onResize devicePixelRatio g)
              = onResize devicePixelRatio g).
  { unfold onResize. rewrite fitCanvas_set_player, fitCanvas_idem by exact H.
    reflexivity. }
  rewrite E. unfold onResize.
  generalize (fitCanvas devicePixelRatio g). intros g1. cbv zeta.
  rewrite (groundY_same (Game.set_player _ g1) g1) by reflexivity.
  reflexivity.
Qed.

(** X12.  The resize listener.  The pixel ratio used is the one of the
    window clamped to [1, 2] (1 when the window gives 0); the bitmap gets
    the width floor(cssW * ratio), for cssW the client width of the canvas,
    or its old bitmap width when the client width is 0; so for a cssW that
    is not negative the bitmap is between floor(cssW) and 2 * cssW wide.
    The height remembered is round(cssW * 200 / 640).  The player is put
    with the lower edge on the ground line, velocity and grounded flag
    untouched, and the session itself is not touched.  With a client width
    other than 0 a second resize with the same ratio changes nothing. *)
Theorem resize_refits_and_regrounds (devicePixelRatio : Q) (g : Game.t) :
  let g' := onResize devicePixelRatio g in
  let c := Game.canvas g in
  let cssW := or_else (Canvas.clientWidth c) (Canvas.width c) in
  let dpr := Math_max 1 (Math_min 2 (or_else devicePixelRatio 1)) in
  1 <= dpr /\ dpr <= 2
  /\ Game.lastCssH g' = inject_Z (Math_round (cssW * (200 / 640)))
  /\ Canvas.width (Game.canvas g') = inject_Z (Math_floor (cssW * dpr))
  /\ Canvas.height (Game.canvas g')
     = inject_Z (Math_floor (Game.lastCssH g' * dpr))
  /\ (0 <= cssW ->
      inject_Z (Math_floor cssW) <= Canvas.width (Game.canvas g')
      /\ Canvas.width (Game.canvas g') <= 2 * cssW)
  /\ Player.y (Game.player g') + Player.h (Game.player g') == groundY g'
  /\ Player.vy (Game.player g') = Player.vy (Game.player g)
  /\ Player.onGround (Game.player g') = Player.onGround (Game.player g)
  /\ Game.score g' = Game.score g
  /\ Game.obstacles g' = Game.obstacles g
  /\ Game.running g' = Game.running g
  /\ Game.started g' = Game.started g
  /\ Game.best g' = Game.best g
  /\ (~ Canvas.clientWidth c == 0 -> onResize devicePixelRatio g' = g').
Proof.
  intros g' c cssW dpr.
  destruct (dpr_clamped devicePixelRatio) as [Hlo Hhi]. fold dpr in Hlo, Hhi.
  assert (Hidem : ~ Canvas.clientWidth c == 0 ->
                  onResize devicePixelRatio g' = g')
    by apply onResize_idem.
  assert (Hfeet : Player.y (Game.player g') + Player.h (Game.player g')
                  == groundY g').
  { unfold g', onResize.
    generalize (fitCanvas devicePixelRatio g). intros g1. cbv zeta.
    match goal with
    | |- context [groundY (Game.set_player ?P g1)] =>
        change (groundY (Game.set_player P g1)) with (groundY g1)
    end.
    game_simpl. player_simpl. generalize (groundY g1). intros gy. ring. }
  assert (Hwidth : Canvas.width (Game.canvas g')
                   = inject_Z (Math_floor (cssW * dpr))) by reflexivity.
  assert (Hbounds : 0 <= cssW ->
                    inject_Z (Math_floor cssW) <= Canvas.width (Game.canvas g')
                    /\ Canvas.width (Game.canvas g') <= 2 * cssW).
  { intros Hw. rewrite Hwidth. unfold Math_floor. split.
    - rewrite <- Zle_Qle. apply Qfloor_resp_le. nra.
    - eapply Qle_trans; [apply Qfloor_le|]. nra. }
  split; [exact Hlo|]. split; [exact Hhi|].
  split; [reflexivity|]. split; [exact Hwidth|]. split; [reflexivity|].
  split; [exact Hbounds|]. split; [exact Hfeet|].
  do 7 (split; [reflexivity|]).
  exact Hidem.
Qed.

(** *** The best score across a reload *)

Lemma lookup_store (k v : string) (l : list (string * string)) :
  Storage.lookup k (Storage.store k v l) = Some v.
Proof.
  induction l as [|[k' v'] l IH]; cbn [Storage.store Storage.lookup].
  - rewrite String.eqb_refl. reflexivity.
  - destruct (String.eqb k k') eqn:E; cbn [Storage.lookup].
    + rewrite String.eqb_refl. reflexivity.
    + rewrite E. exact IH.
Qed.

(** X13.  A record that is written is read back.  When the game is lost
    with floor(score) above the best score and the store takes the write,
    a page loaded afterwards from that store starts with exactly that
    best score, provided the browser converts the decimal string of the
    number back to the number. *)
Theorem written_best_is_read_back
    (g : Game.t) (canvas : Canvas.t) (now devicePixelRatio : Q) :
  let floored := Math_floor (Game.score g) in
  Game.best g < inject_Z floored ->
  Storage.denied (Game.localStorage g) = false ->
  Storage.full (Game.localStorage g) = false ->
  StringToNumber (String_of_int floored) = Num (inject_Z floored) ->
  Storage.getItem storageKey (Game.localStorage (lose g))
  = Normal (Some (String_of_int floored))
  /\ Game.best (init canvas (Game.localStorage (lose g)) now devicePixelRatio)
     = Game.best (lose g)
  /\ Game.best (lose g) = inject_Z floored.
Proof.
  intros floored Hlt Hden Hfull Hnum.
  apply gt_true_iff in Hlt.
  assert (Estore : Game.localStorage (lose g)
                   = Storage.mk
                       (Storage.store storageKey (String_of_int floored)
                          (Storage.entries (Game.localStorage g)))
                       false false).
  { rewrite lose_localStorage. cbv zeta. fold floored. rewrite Hlt.
    unfold Storage.setItem. rewrite Hden, Hfull. reflexivity. }
  assert (Eget : Storage.getItem storageKey (Game.localStorage (lose g))
                 = Normal (Some (String_of_int floored))).
  { rewrite Estore. unfold Storage.getItem. cbn [Storage.denied Storage.entries].
    rewrite lookup_store. reflexivity. }
  assert (Ebest : Game.best (lose g) = inject_Z floored).
  { rewrite lose_best. cbv zeta. fold floored. rewrite Hlt. reflexivity. }
  split; [exact Eget|]. split; [|exact Ebest].
  rewrite init_best, Eget. cbn [Number_]. rewrite Hnum, Ebest. reflexivity.
Qed.

(** *** Rounded rectangles *)

(** X14.  Every arc of the path [roundRect] lays has the same radius, which
    is never negative, never more than the radius asked for when that is
    not negative, and never more than half the width or half the height
    of a rectangle with sides that are not negative; it is the radius
    asked for when that fits, and 0 for a radius or a side that is
    negative. *)
Theorem roundRect_radius_clamped (x y w h r : Q) :
  exists rr : Q,
    roundRect x y w h r
    = [ beginPath; moveTo (x + rr) y;
        arcTo (x + w) y (x + w) (y + h) rr;
        arcTo (x + w) (y + h) x (y + h) rr;
        arcTo x (y + h) x y rr;
        arcTo x y (x + w) y rr;
        closePath ]
    /\ 0 <= rr
    /\ (0 <= r -> rr <= r)
    /\ (0 <= w -> 0 <= h -> 2 * rr <= w /\ 2 * rr <= h)
    /\ (0 <= r -> 2 * r <= w -> 2 * r <= h -> rr == r)
    /\ (r <= 0 \/ w <= 0 \/ h <= 0 -> rr == 0).
Proof.
  eexists. split; [reflexivity|].
  unfold Math_max, Math_min.
  set (m := Qmin w h).
  assert (Hm1 : m <= w) by apply Q.le_min_l.
  assert (Hm2 : m <= h) by apply Q.le_min_r.
  assert (Hm3 : w <= h -> m == w) by apply Q.min_l.
  assert (Hm4 : h <= w -> m == h) by apply Q.min_r.
  set (half := m / 2).
  assert (Hhalf : half == m * (1 # 2)) by (unfold half; field).
  clearbody half. 
  set (c := Qmin r half).
  assert (Hc1 : c <= r) by apply Q.le_min_l.
  assert (Hc2 : c <= half) by apply Q.le_min_r.
  assert (Hc3 : r <= half -> c == r) by apply Q.min_l.
  assert (Hc4 : half <= r -> c == half) by apply Q.min_r.
  clearbody c m.
  pose proof (Q.le_max_l 0 c) as Hr1.
  pose proof (Q.le_max_r 0 c) as Hr2.
  assert (Hr3 : c <= 0 -> Qmax 0 c == 0) by apply Q.max_l.
  assert (Hr4 : 0 <= c -> Qmax 0 c == c) by apply Q.max_r.
  generalize dependent (Qmax 0 c). intros rr Hr1 Hr2 Hr3 Hr4.
  split; [exact Hr1|].
  destruct (Qlt_le_dec c 0) as [Hneg | Hpos].
  - assert (E : rr == 0) by (apply Hr3; lra).
    split; [intros; lra|]. split; [intros; lra|].
    split; [|intros _; exact E].
    intros H0 Hw Hh.
    destruct (Qlt_le_dec half r) as [Hlt | Hle];
      [rewrite Hc4 in Hneg by lra | rewrite Hc3 in Hneg by lra];
      destruct (Qlt_le_dec w h) as [Hwh | Hhw];
      try (rewrite Hm3 in Hhalf by lra); try (rewrite Hm4 in Hhalf by lra);
      lra.
  - assert (E : rr == c) by (apply Hr4; exact Hpos).
    split; [intros; lra|].
    split.
    { intros Hw Hh. rewrite E. split; lra. }
    split.
    { intros H0 Hw Hh. rewrite E. apply Hc3.
      destruct (Qlt_le_dec w h) as [Hwh | Hhw];
        [rewrite Hm3 in Hhalf by lra | rewrite Hm4 in Hhalf by lra]; lra. }
    intros [Hr | [Hw | Hh]]; rewrite E; lra.
Qed.

(** *** A jump *)

Lemma gravity_player (dt : Q) (g : Game.t) :
  let p := Game.player g in
  let vy1 := Player.vy p + 1200 * dt in
  let y1 := Player.y p + vy1 * dt in
  Game.player (gravity dt (difficulty g))
  = if y1 + Player.h p >=? groundY g
    then Player.mk (Player.x p) (groundY g - Player.h p) 0 true
           (Player.fontPx p) (Player.w p) (Player.h p)
    else Player.mk (Player.x p) y1 vy1 (Player.onGround p)
           (Player.fontPx p) (Player.w p) (Player.h p).
Proof.
  intros p vy1 y1. unfold gravity, difficulty. game_simpl. player_simpl.
  change (groundY (Game.set_speed (speedFor (Game.score g)) g))
    with (groundY g).
  fold p. fold vy1. fold y1.
  destruct (y1 + Player.h p >=? groundY g); reflexivity.
Qed.

(** X15.  A jump takes the player off the ground.  After a jump key in a
    running session, with the player grounded and not below the ground
    line, a tick with a delta in (0, 0.033] leaves the player moving
    upwards with the velocity -460 + 1200 dt, above where it stood, above
    the ground line and not grounded; a jump key then changes nothing. *)
Theorem jump_lifts_the_player (dt : Q) (g : Game.t) :
  Game.started g = true ->
  Game.running g = true ->
  Player.onGround (Game.player g) = true ->
  Player.y (Game.player g) + Player.h (Game.player g) <= groundY g ->
  0 < dt -> dt <= 0.033 ->
  let p := Game.player g in
  let g' := update dt (handle (KeyDown " ") g) in
  let p' := Game.player g' in
  Player.vy p' = -460 + 1200 * dt
  /\ Player.vy p' < 0
  /\ Player.y p' = Player.y p + (-460 + 1200 * dt) * dt
  /\ Player.y p' < Player.y p
  /\ Player.y p' + Player.h p' < groundY g'
  /\ Player.onGround p' = false
  /\ handle (KeyDown " ") g' = g'.
Proof.
  intros Hs Hr Hon Hfeet Hdt0 Hdt1 p g' p'.
  assert (Eg1 : handle (KeyDown " ") g
                = Game.set_player (Player.jump p) g).
  { cbn [handle]. unfold onKeyDown, onJumpIntent, start.
    change (isJumpKey " ") with true. change (isRestartKey " ") with false.
    cbv iota. rewrite Hs. cbn [negb]. rewrite Hr. reflexivity. }
  assert (Ejump : Player.jump p
                  = Player.mk (Player.x p) (Player.y p) (-460) false
                      (Player.fontPx p) (Player.w p) (Player.h p)).
  { unfold Player.jump. fold p in Hon. rewrite Hon. reflexivity. }
  assert (Hs' : Game.started g' = true).
  { unfold g'. rewrite update_started_flag, Eg1. exact Hs. }
  assert (Ep : p' = Player.mk (Player.x p)
                      (Player.y p + (-460 + 1200 * dt) * dt)
                      (-460 + 1200 * dt) false
                      (Player.fontPx p) (Player.w p) (Player.h p)).
  { unfold p', g'. rewrite update_player by (rewrite Eg1; exact Hs).
    rewrite gravity_player. cbv zeta. rewrite Eg1. game_simpl.
    rewrite Ejump. player_simpl.
    change (groundY (Game.set_player
                       (Player.mk (Player.x p) (Player.y p) (-460) false
                          (Player.fontPx p) (Player.w p) (Player.h p)) g))
      with (groundY g).
    assert (Hair : Player.y p + (-460 + 1200 * dt) * dt + Player.h p
                   < groundY g) by (fold p in Hfeet; nra).
    apply ge_false_iff in Hair. rewrite Hair. reflexivity. }
  assert (Egy : groundY g' = groundY g).
  { unfold g'. rewrite update_groundY, Eg1. reflexivity. }
  rewrite Egy, Ep. player_simpl. fold p in Hfeet.
  split; [reflexivity|]. split; [lra|]. split; [reflexivity|].
  split; [nra|]. split; [nra|]. split; [reflexivity|].
  cbn [handle]. unfold onKeyDown.
  change (isJumpKey " ") with true. change (isRestartKey " ") with false.
  cbv iota. apply onJumpIntent_airborne; [exact Hs'|].
  fold p'. rewrite Ep. reflexivity.
Qed.

(** *** What every event keeps *)

(** A property kept by each thing a listener does is kept by every event,
    and so by every run of events. *)
Lemma handle_invariant (P : Game.t -> Prop) :
  (forall g, P g -> P (onJumpIntent g)) ->
  (forall g, P g -> P (restart g)) ->
  (forall g, P g -> P (Game.set_started true g)) ->
  (forall g now, P g -> P (Game.set_last now g)) ->
  (forall g c, P g -> P (Game.set_canvas c g)) ->
  (forall g dpr, P g -> P (onResize dpr g)) ->
  (forall g dt, 0 <= dt -> dt <= 0.033 -> Game.running g = true ->
                P g -> P (update dt g)) ->
  (forall g, P g -> P (draw g)) ->
  forall e g, P g -> P (handle e g).
Proof.
  intros Hjump Hrestart Hstart Hlast Hcanvas Hresize Hupdate Hdraw e g HP.
  destruct e; cbn [handle]; auto.
  - unfold onKeyDown.
    destruct (isJumpKey key), (isRestartKey key); auto.
  - unfold onPointerDown.
    destruct (Game.started g), (Game.running g); cbn [negb]; auto.
  - rewrite loop_eq. apply Hdraw.
    destruct (Game.running g) eqn:Hr; [|auto].
    apply Hupdate; auto using frameDt_nonneg, frameDt_le.
Qed.

Lemma run_invariant (P : Game.t -> Prop) :
  (forall e g, P g -> P (handle e g)) ->
  forall es g, P g -> P (run es g).
Proof.
  intros Hstep es. unfold run.
  induction es as [|e es IH]; intros g HP; cbn [fold_left]; auto.
Qed.

Lemma init_eq (canvas : Canvas.t) (storage : Storage.t)
    (now devicePixelRatio : Q) :
  exists g0 : Game.t,
    init canvas storage now devicePixelRatio = reset g0
    /\ Game.player g0 = player0.
Proof.
  unfold init. eexists. split; [reflexivity|].
  unfold fitCanvas. game_simpl. rewrite loadBest_eq. reflexivity.
Qed.

(** **** The box of the player *)

Lemma boxKept_player (g g' : Game.t) :
  Player.x (Game.player g') = Player.x (Game.player g) ->
  Player.fontPx (Game.player g') = Player.fontPx (Game.player g) ->
  Player.w (Game.player g') = Player.w (Game.player g) ->
  Player.h (Game.player g') = Player.h (Game.player g) ->
  boxKept g -> boxKept g'.
Proof.
  unfold boxKept. cbv zeta. intros -> -> -> ->. auto.
Qed.

Lemma jump_box (p : Player.t) :
  Player.x (Player.jump p) = Player.x p
  /\ Player.fontPx (Player.jump p) = Player.fontPx p
  /\ Player.w (Player.jump p) = Player.w p
  /\ Player.h (Player.jump p) = Player.h p.
Proof.
  unfold Player.jump. destruct (negb (Player.onGround p)); repeat split.
Qed.

Lemma boxKept_reset (g : Game.t) :
  Player.x (Game.player g) = 46 ->
  Player.fontPx (Game.player g) = 30%Z ->
  boxKept (reset g).
Proof.
  intros Hx Hf. unfold boxKept. rewrite reset_eq. cbv zeta.
  game_simpl. player_simpl.
  split; [exact Hx|]. split; [exact Hf|].
  split; apply Q.le_max_l.
Qed.

Lemma boxKept_set_started (b : bool) (g : Game.t) :
  boxKept g -> boxKept (Game.set_started b g).
Proof. intros H. exact H. Qed.

Lemma update_box (dt : Q) (g : Game.t) :
  let p := Game.player g in
  let p' := Game.player (update dt g) in
  Player.x p' = Player.x p /\ Player.fontPx p' = Player.fontPx p
  /\ Player.w p' = Player.w p /\ Player.h p' = Player.h p.
Proof.
  intros p p'. subst p'.
  destruct (Game.started g) eqn:Hs.
  - rewrite (update_player dt g Hs), gravity_player. cbv zeta. fold p.
    destruct (_ >=? _); repeat split.
  - unfold update. rewrite Hs. repeat split.
Qed.

(** X16.  In every state the page can reach, whatever the events, the
    player stands at x = 46 with the font size 30, and its box is at
    least 18 wide and 22 high. *)
Theorem player_box_in_every_state
    (canvas : Canvas.t) (storage : Storage.t) (now devicePixelRatio : Q)
    (es : list Event) :
  let g := run es (init canvas storage now devicePixelRatio) in
  Player.x (Game.player g) = 46
  /\ Player.fontPx (Game.player g) = 30%Z
  /\ 18 <= Player.w (Game.player g)
  /\ 22 <= Player.h (Game.player g).
Proof.
  intro g. change (boxKept g). subst g.
  apply run_invariant.
  - apply handle_invariant; intros g.
    + intros H. refine (boxKept_player g _ _ _ _ _ H);
        unfold onJumpIntent, start;
        destruct (Game.started g); cbn [negb]; game_simpl;
        destruct (Game.running g); cbn [negb]; game_simpl;
        try reflexivity; apply jump_box.
    + intros (Hx & Hf & _). unfold restart.
      apply boxKept_set_started, boxKept_reset; assumption.
    + intros H. exact H.
    + intros now' H. exact H.
    + intros c H. exact H.
    + intros dpr H. refine (boxKept_player g _ _ _ _ _ H); reflexivity.
    + intros dt _ _ _ H.
      refine (boxKept_player g _ _ _ _ _ H); apply update_box.
    + intros H. exact H.
  - destruct (init_eq canvas storage now devicePixelRatio) as (g0 & -> & Ep).
    apply boxKept_reset; rewrite Ep; reflexivity.
Qed.

(** **** Score, speed and spawn timer *)

Lemma onJumpIntent_fields (g : Game.t) :
  let g' := onJumpIntent g in
  Game.score g' = Game.score g
  /\ Game.speed g' = Game.speed g
  /\ Game.spawnTimer g' = Game.spawnTimer g
  /\ Game.obstacles g' = Game.obstacles g
  /\ Game.sparks g' = Game.sparks g.
Proof.
  intro g'. subst g'. unfold onJumpIntent, start.
  destruct (Game.started g); cbn [negb]; game_simpl;
    destruct (Game.running g); cbn [negb]; game_simpl;
    repeat split.
Qed.

Lemma inRange_fields (g g' : Game.t) :
  Game.score g' = Game.score g ->
  Game.speed g' = Game.speed g ->
  Game.spawnTimer g' = Game.spawnTimer g ->
  inRange g -> inRange g'.
Proof. unfold inRange. intros -> -> ->. auto. Qed.

Lemma inRange_reset (g : Game.t) : inRange (reset g).
Proof.
  unfold inRange. rewrite reset_eq. cbv zeta. game_simpl.
  repeat split; discriminate.
Qed.

Lemma inRange_set_started (b : bool) (g : Game.t) :
  inRange g -> inRange (Game.set_started b g).
Proof. intros H. exact H. Qed.

Lemma bonus_bound (speed : Q) :
  260 <= speed -> Math_max 0 ((520 - speed) / 900) <= 0.289.
Proof.
  intros H. unfold Math_max. apply Q.max_lub; [discriminate|].
  apply Qle_shift_div_r; [reflexivity | lra].
Qed.

Lemma update_inRange (dt : Q) (g : Game.t) :
  0 <= dt -> inRange g -> inRange (update dt g).
Proof.
  intros Hdt (Hscore & Hs1 & Hs2 & Ht1 & Ht2).
  destruct (Game.started g) eqn:Hs.
  - unfold inRange.
    rewrite update_score, Hs, (update_speed dt g Hs).
    split; [nra|].
    split; [apply speedFor_ge_base; exact Hscore|].
    split; [apply speedFor_le_cap|].
    destruct (Qlt_le_dec 0 (Game.spawnTimer g - dt)) as [Hwait | Hspawn].
    + rewrite (update_spawnTimer_wait dt g Hs Hwait). split; lra.
    + rewrite (update_spawnTimer dt g Hs).
      destruct (spawnPacing_spawn dt (gravity dt (difficulty g)) Hspawn)
        as (o & n & _ & _ & ->).
      change (Game.speed (gravity dt (difficulty g)))
        with (speedFor (Game.score g)).
      pose proof (bonus_bound _ (speedFor_ge_base _ Hscore)) as Hb.
      pose proof (Q.le_max_l 0 ((520 - speedFor (Game.score g)) / 900)) as Hb0.
      destruct (Math_random_range n) as [Hr0 Hr1].
      unfold Math_max in *. split; lra.
  - refine (inRange_fields g _ _ _ _ (conj Hscore (conj Hs1 (conj Hs2
              (conj Ht1 Ht2))))); unfold update; rewrite Hs; reflexivity.
Qed.

(** X17.  In every state the page can reach the score is not negative, the
    world speed lies in [260, 520], and the spawn timer lies in
    [0, 1.64). *)
Theorem score_speed_timer_in_every_state
    (canvas : Canvas.t) (storage : Storage.t) (now devicePixelRatio : Q)
    (es : list Event) :
  let g := run es (init canvas storage now devicePixelRatio) in
  0 <= Game.score g
  /\ 260 <= Game.speed g /\ Game.speed g <= 520
  /\ 0 <= Game.spawnTimer g /\ Game.spawnTimer g < 1.64.
Proof.
  intro g. change (inRange g). subst g.
  apply run_invariant.
  - apply handle_invariant; intros g.
    + intros H. refine (inRange_fields g _ _ _ _ H);
        apply onJumpIntent_fields.
    + intros _. unfold restart.
      apply inRange_set_started, inRange_reset.
    + intros H. exact H.
    + intros now' H. exact H.
    + intros c H. exact H.
    + intros dpr H. exact H.
    + intros dt Hdt _ _ H. apply update_inRange; assumption.
    + intros H. exact H.
  - destruct (init_eq canvas storage now devicePixelRatio) as (g0 & -> & _).
    apply inRange_reset.
Qed.

(** **** Obstacles *)

Lemma wellFormed_moved (speed dt : Q) (o : Obstacle.t) :
  wellFormed o -> wellFormed (moveObstacle speed dt o).
Proof. intros H. exact H. Qed.

Lemma spawnPacing_obstacles (dt : Q) (g : Game.t) :
  Game.obstacles (spawnPacing dt g) = Game.obstacles g
  \/ exists o, wellFormed o
               /\ Game.obstacles (spawnPacing dt g) = Game.obstacles g ++ [o].
Proof.
  unfold spawnPacing. game_simpl.
  destruct (_ <=? 0); [|left; reflexivity].
  right. unfold random.
  match goal with
  | |- context [spawnObstacle ?g0] =>
      destruct (spawnObstacle_parts g0)
        as (o & n & gap & maxH & E & _ & _ & _ & Hgap & Hlen & Hrow & Hw & Hh
            & Hall);
      rewrite E
  end.
  game_simpl. exists o.
  split; [exact (parts_wellFormed o gap maxH Hgap Hlen Hrow Hw Hh Hall)|].
  reflexivity.
Qed.

Lemma obstaclesLive_fields (g g' : Game.t) :
  Game.obstacles g' = Game.obstacles g -> obstaclesLive g -> obstaclesLive g'.
Proof. unfold obstaclesLive. intros ->. auto. Qed.

Lemma obstaclesLive_reset (g : Game.t) : obstaclesLive (reset g).
Proof. unfold obstaclesLive. rewrite reset_eq. constructor. Qed.

Lemma obstaclesLive_set_started (b : bool) (g : Game.t) :
  obstaclesLive g -> obstaclesLive (Game.set_started b g).
Proof. intros H. exact H. Qed.

Lemma update_obstaclesLive (dt : Q) (g : Game.t) :
  obstaclesLive g -> obstaclesLive (update dt g).
Proof.
  intros H. destruct (Game.started g) eqn:Hs.
  - unfold obstaclesLive in *. rewrite (update_obstacles dt g Hs).
    set (g1 := gravity dt (difficulty g)).
    assert (Hwf : Forall wellFormed (Game.obstacles (spawnPacing dt g1))).
    { assert (Hold : Forall wellFormed (Game.obstacles g)).
      { eapply Forall_impl; [|exact H]. cbv beta. intros a [Ha _]. exact Ha. }
      destruct (spawnPacing_obstacles dt g1) as [-> | (o & Ho & ->)];
        [exact Hold|].
      apply Forall_app. split; [exact Hold | constructor; [exact Ho|constructor]]. }
    rewrite Forall_forall in *. intros o' Hin.
    unfold scrollObstacles in Hin.
    rewrite filter_In, in_map_iff, gt_true_iff in Hin.
    destruct Hin as [(o & <- & Hino) Hedge].
    split; [apply wellFormed_moved, Hwf, Hino | exact Hedge].
  - refine (obstaclesLive_fields g _ _ H).
    unfold update. rewrite Hs. reflexivity.
Qed.

(** X18.  In every state the page can reach, every obstacle is a cluster as
    [spawnObstacle] makes them (at least 14 wide and 16 high, with one to
    three glyphs inside its box), and its right edge is right of
    x = -30. *)
Theorem obstacles_in_every_state
    (canvas : Canvas.t) (storage : Storage.t) (now devicePixelRatio : Q)
    (es : list Event) :
  let g := run es (init canvas storage now devicePixelRatio) in
  Forall (fun o => wellFormed o /\ -30 < Obstacle.x o + Obstacle.w o)
    (Game.obstacles g).
Proof.
  intro g. change (obstaclesLive g). subst g.
  apply run_invariant.
  - apply handle_invariant; intros g.
    + intros H. refine (obstaclesLive_fields g _ _ H).
      apply onJumpIntent_fields.
    + intros _. unfold restart.
      apply obstaclesLive_set_started, obstaclesLive_reset.
    + intros H. exact H.
    + intros now' H. exact H.
    + intros c H. exact H.
    + intros dpr H. exact H.
    + intros dt _ _ _ H. apply update_obstaclesLive. exact H.
    + intros H. exact H.
  - destruct (init_eq canvas storage now devicePixelRatio) as (g0 & -> & _).
    apply obstaclesLive_reset.
Qed.

(** **** Sparks *)

Lemma advance_sparks (dt : Q) (g : Game.t) :
  Game.sparks (advance dt g)
  = filter (fun s => Spark.r s >? 0.25)
      (map (driftSpark (speedFor (Game.score g)) dt) (Game.sparks g)).
Proof. advance_frame. Qed.

Lemma sparksOnlyAfterLoss_fields (g g' : Game.t) :
  Game.sparks g' = Game.sparks g ->
  Game.running g' = Game.running g ->
  sparksOnlyAfterLoss g -> sparksOnlyAfterLoss g'.
Proof. unfold sparksOnlyAfterLoss. intros -> ->. auto. Qed.

Lemma sparksOnlyAfterLoss_none (g : Game.t) :
  Game.sparks g = [] -> sparksOnlyAfterLoss g.
Proof.
  intros E. unfold sparksOnlyAfterLoss. rewrite E.
  repeat split; auto.
Qed.

Lemma update_sparksOnlyAfterLoss (dt : Q) (g : Game.t) :
  Game.running g = true ->
  sparksOnlyAfterLoss g -> sparksOnlyAfterLoss (update dt g).
Proof.
  intros Hr H. destruct (Game.started g) eqn:Hs.
  - destruct H as (Hnone & _). specialize (Hnone Hr).
    assert (E1 : Game.sparks (advance dt g) = []).
    { rewrite advance_sparks, Hnone. reflexivity. }
    rewrite (update_started dt g Hs), collision_eq.
    destruct (hits _ _); [|apply sparksOnlyAfterLoss_none, E1].
    unfold sparksOnlyAfterLoss.
    rewrite lose_running, lose_sparks. cbv zeta. rewrite E1.
    destruct prefersReducedMotion eqn:Hm; cbn [app].
    + repeat split; auto.
    + split; [discriminate|]. split; [discriminate|].
      split; [right; apply burst_length | apply burst_ranges].
  - refine (sparksOnlyAfterLoss_fields g _ _ _ H);
      unfold update; rewrite Hs; reflexivity.
Qed.

(** X19.  In every state the page can reach there are sparks only while the
    session is lost: a running session has none, and with reduced motion
    asked for there are never any.  When there are sparks there are 14 of
    them, each with the radius and the speed it was created with, a
    radius in [1.5, 3.7) and a speed in [120, 320): [update] does not run
    while the session is lost, so the "Sparks drift" block only ever sees
    an empty list. *)
Theorem sparks_only_after_loss
    (canvas : Canvas.t) (storage : Storage.t) (now devicePixelRatio : Q)
    (es : list Event) :
  let g := run es (init canvas storage now devicePixelRatio) in
  (Game.running g = true -> Game.sparks g = [])
  /\ (prefersReducedMotion = true -> Game.sparks g = [])
  /\ (Game.sparks g = [] \/ List.length (Game.sparks g) = 14%nat)
  /\ Forall (fun s => 1.5 <= Spark.r s /\ Spark.r s < 3.7
                      /\ 120 <= Spark.spd s /\ Spark.spd s < 320)
       (Game.sparks g).
Proof.
  intro g. change (sparksOnlyAfterLoss g). subst g.
  apply run_invariant.
  - apply handle_invariant; intros g.
    + intros H. refine (sparksOnlyAfterLoss_fields g _ _ _ H);
        [apply onJumpIntent_fields | apply onJumpIntent_running].
    + intros _. apply sparksOnlyAfterLoss_none.
      unfold restart. generalize (reset_eq g). cbv zeta.
      generalize (reset g). intros g1 ->. reflexivity.
    + intros H. exact H.
    + intros now' H. exact H.
    + intros c H. exact H.
    + intros dpr H. exact H.
    + intros dt _ _ Hr H. apply update_sparksOnlyAfterLoss; assumption.
    + intros H. exact H.
  - destruct (init_eq canvas storage now devicePixelRatio) as (g0 & -> & _).
    apply sparksOnlyAfterLoss_none. rewrite reset_eq. reflexivity.
Qed.

(** **** Before the first input *)

Lemma idle_reset (g : Game.t) : idleUntilStarted (reset g).
Proof.
  unfold idleUntilStarted. rewrite reset_eq. cbv zeta. game_simpl.
  player_simpl. intros _. repeat split.
Qed.

Lemma idle_started (g : Game.t) :
  Game.started g = true -> idleUntilStarted g.
Proof. unfold idleUntilStarted. intros ->. discriminate. Qed.

(** X20.  In every state the page can reach, a session that is not started
    is running, with the score 0, the speed 260, the spawn timer 0, no
    obstacles and no sparks, and the player at rest and grounded: before
    the first input, frames advance nothing. *)
Theorem nothing_happens_before_the_start
    (canvas : Canvas.t) (storage : Storage.t) (now devicePixelRatio : Q)
    (es : list Event) :
  let g := run es (init canvas storage now devicePixelRatio) in
  Game.started g = false ->
  Game.running g = true
  /\ Game.score g = 0
  /\ Game.speed g = 260
  /\ Game.spawnTimer g = 0
  /\ Game.obstacles g = []
  /\ Game.sparks g = []
  /\ Player.vy (Game.player g) = 0
  /\ Player.onGround (Game.player g) = true.
Proof.
  intro g. change (idleUntilStarted g). subst g.
  apply run_invariant.
  - apply handle_invariant; intros g.
    + intros _. apply idle_started, onJumpIntent_started.
    + intros _. apply idle_started, restart_started.
    + intros _. apply idle_started. reflexivity.
    + intros now' H. exact H.
    + intros c H. exact H.
    + intros dpr H. exact H.
    + intros dt _ _ _ H.
      destruct (Game.started g) eqn:Hs.
      * apply idle_started. rewrite update_started_flag. exact Hs.
      * specialize (H Hs). unfold idleUntilStarted, update. rewrite Hs.
        cbn [negb]. unfold holdOnGround. game_simpl. player_simpl.
        intros _. destruct H as (H1 & H2 & H3 & H4 & H5 & H6 & H7 & H8).
        repeat split; assumption.
    + intros H. exact H.
  - destruct (init_eq canvas storage now devicePixelRatio) as (g0 & -> & _).
    apply idle_reset.
Qed.

(** *** Who writes the best score *)

Lemma onJumpIntent_localStorage (g : Game.t) :
  Game.localStorage (onJumpIntent g) = Game.localStorage g.
Proof.
  unfold onJumpIntent, start.
  destruct (Game.started g); cbn [negb]; game_simpl;
    destruct (Game.running g); cbn [negb]; game_simpl; reflexivity.
Qed.

Lemma localStorage_set_started (b : bool) (g : Game.t) :
  Game.localStorage (Game.set_started b g) = Game.localStorage g.
Proof. reflexivity. Qed.

Lemma restart_localStorage (g : Game.t) :
  Game.localStorage (restart g) = Game.localStorage g.
Proof.
  unfold restart. rewrite localStorage_set_started, reset_eq. reflexivity.
Qed.

Lemma update_keeps_best_when_running (dt : Q) (g : Game.t) :
  Game.running g = true ->
  Game.running (update dt g) = true ->
  Game.best (update dt g) = Game.best g
  /\ Game.localStorage (update dt g) = Game.localStorage g.
Proof.
  intros Hr Hr'. destruct (Game.started g) eqn:Hs.
  - rewrite (update_started dt g Hs), collision_eq in *.
    destruct (hits _ _).
    + rewrite lose_running in Hr'. discriminate.
    + split; [apply advance_best | apply advance_localStorage].
  - unfold update. rewrite Hs. split; reflexivity.
Qed.

(** X21.  The best score and the store are touched by nothing but the
    frame in which a running, started session is lost: every key, pointer
    press and click, restart included, every resize and visibility change,
    and every frame that does not end the session leave both as they
    are. *)
Theorem only_a_losing_frame_writes_the_best (e : Event) (g : Game.t) :
  ((forall now, e <> Frame now)
   \/ Game.running g = false
   \/ Game.started g = false
   \/ Game.running (handle e g) = true) ->
  Game.best (handle e g) = Game.best g
  /\ Game.localStorage (handle e g) = Game.localStorage g.
Proof.
  intros H.
  destruct e; cbn [handle] in *.
  - unfold onKeyDown.
    destruct (isJumpKey key), (isRestartKey key);
      rewrite ?restart_best, ?restart_localStorage, ?onJumpIntent_best,
        ?onJumpIntent_localStorage; split; reflexivity.
  - unfold onPointerDown.
    destruct (Game.started g), (Game.running g); cbn [negb];
      rewrite ?restart_best, ?restart_localStorage, ?onJumpIntent_best,
        ?onJumpIntent_localStorage; split; reflexivity.
  - rewrite restart_best, restart_localStorage. split; reflexivity.
  - split; reflexivity.
  - split; reflexivity.
  - split; reflexivity.
  - rewrite loop_eq in *. unfold draw in *. game_simpl.
    destruct (Game.running g) eqn:Hr; [|split; reflexivity].
    destruct H as [H | [H | [H | H]]].
    + exfalso. exact (H now eq_refl).
    + discriminate.
    + unfold update. change (Game.started (Game.set_last now g))
        with (Game.started g). rewrite H. split; reflexivity.
    + apply (update_keeps_best_when_running _ (Game.set_last now g));
        [exact Hr | exact H].
Qed.

(** *** The tick that spawns *)

Lemma world_w_nonneg (g : Game.t) :
  0 <= Canvas.clientWidth (Game.canvas g) -> 0 <= world_w g.
Proof.
  intros H. unfold world_w.
  destruct (or_else_cases (Canvas.clientWidth (Game.canvas g)) 640)
    as [[_ ->] | [_ ->]]; [discriminate | exact H].
Qed.

(** The spawn-pacing block with a timer that has run out: one call of
    [spawnObstacle], one more draw, and the timer assigned. *)
Lemma spawnPacing_spawns (dt : Q) (g : Game.t) :
  Game.spawnTimer g - dt <= 0 ->
  exists (o : Obstacle.t) (n : nat),
    (Game.draws g < n)%nat
    /\ Game.obstacles
         (spawnObstacle (Game.set_spawnTimer (Game.spawnTimer g - dt) g))
       = Game.obstacles g ++ [o]
    /\ Game.obstacles (spawnPacing dt g) = Game.obstacles g ++ [o]
    /\ Obstacle.x o = world_w g + 10
    /\ wellFormed o
    /\ Game.spawnTimer (spawnPacing dt g)
       = 0.75 + Math_random n * (1.35 - 0.75)
         + Math_max 0 ((520 - Game.speed g) / 900).
Proof.
  intros H. unfold spawnPacing. game_simpl.
  apply le_true_iff in H. rewrite H. unfold random.
  set (g0 := Game.set_spawnTimer (Game.spawnTimer g - dt) g).
  destruct (spawnObstacle_parts g0)
    as (o & n & gap & maxH & E & Hn & Hx & _ & Hgap & Hlen & Hrow & Hw & Hh
        & Hall).
  rewrite E. game_simpl. exists o, n.
  split; [rewrite Hn; change (Game.draws g0) with (Game.draws g); lia|].
  split; [reflexivity|]. split; [reflexivity|].
  split; [exact Hx|].
  split; [exact (parts_wellFormed o gap maxH Hgap Hlen Hrow Hw Hh Hall)|].
  reflexivity.
Qed.

Lemma scroll_keeps_new_obstacle (speed dt : Q) (os : list Obstacle.t)
    (o : Obstacle.t) :
  -30 < Obstacle.x o - speed * dt + Obstacle.w o ->
  scrollObstacles speed dt (os ++ [o])
  = scrollObstacles speed dt os ++ [moveObstacle speed dt o].
Proof.
  intros H. unfold scrollObstacles.
  rewrite map_app, filter_app. cbn [map filter].
  apply gt_true_iff in H.
  unfold moveObstacle at 2 3, Obstacle.set_x. cbn [Obstacle.x Obstacle.w].
  rewrite H. reflexivity.
Qed.

(** A started tick with a timer that has run out, from the list of
    obstacles before it to the list after it. *)
Lemma update_spawn_tick (dt : Q) (g : Game.t) :
  Game.started g = true ->
  Game.spawnTimer g - dt <= 0 ->
  let speed := speedFor (Game.score g) in
  exists (o : Obstacle.t) (n : nat),
    (Game.draws g < n)%nat
    /\ Game.obstacles (spawnPacing dt (gravity dt (difficulty g)))
       = Game.obstacles g ++ [o]
    /\ Obstacle.x o = world_w g + 10
    /\ wellFormed o
    /\ Game.obstacles (update dt g)
       = scrollObstacles speed dt (Game.obstacles g ++ [o])
    /\ (0 <= dt -> dt <= 0.033 ->
        0 <= Canvas.clientWidth (Game.canvas g) ->
        Game.obstacles (update dt g)
        = scrollObstacles speed dt (Game.obstacles g)
          ++ [moveObstacle speed dt o])
    /\ Game.spawnTimer (update dt g)
       = 0.75 + Math_random n * (1.35 - 0.75)
         + Math_max 0 ((520 - speed) / 900).
Proof.
  intros Es H speed.
  set (g1 := gravity dt (difficulty g)).
  assert (Ht : Game.spawnTimer g1 = Game.spawnTimer g) by reflexivity.
  rewrite <- Ht in H.
  destruct (spawnPacing_spawns dt g1 H)
    as (o & n & Hn & _ & Hobs & Hx & Hwf & Htimer).
  change (Game.draws g1) with (Game.draws g) in Hn.
  change (Game.obstacles g1) with (Game.obstacles g) in Hobs.
  change (world_w g1) with (world_w g) in Hx.
  change (Game.speed g1) with speed in Htimer.
  exists o, n.
  assert (Eobs : Game.obstacles (update dt g)
                 = scrollObstacles speed dt (Game.obstacles g ++ [o])).
  { rewrite (update_obstacles dt g Es). fold g1. rewrite Hobs. reflexivity. }
  split; [exact Hn|]. split; [exact Hobs|]. split; [exact Hx|].
  split; [exact Hwf|]. split; [exact Eobs|].
  split.
  - intros Hdt0 Hdt1 Hcw. rewrite Eobs.
    apply scroll_keeps_new_obstacle.
    pose proof (world_w_nonneg g Hcw) as Hww.
    pose proof (speedFor_le_cap (Game.score g)) as Hs. fold speed in Hs.
    destruct Hwf as (Hw & _).
    assert (speed * dt <= 520 * 0.033) by nra.
    rewrite Hx. lra.
  - rewrite (update_spawnTimer dt g Es). fold g1. exact Htimer.
Qed.

(** C7.  In a started tick whose decremented spawn timer is at most 0, the
    spawn-pacing block appends exactly one obstacle to the list, whatever
    the size of the underflow: the cluster [spawnObstacle] makes, 10
    pixels right of the viewport.  The list is then moved and filtered;
    for a delta in [0, 0.033] and a client width that is not negative the
    new obstacle passes the filter, so the tick ends with the old
    obstacles that are left and the new one after them.  The timer is
    assigned the base interval 0.75 + r * (1.35 - 0.75), for a draw r of
    [Math.random] not used before, plus the bonus max(0, (520 - speed) /
    900): the base interval lies in [0.75, 1.35) and the new timer is at
    least the base interval.  In a started tick whose decremented timer is
    positive the block appends nothing.  In no tick the number of
    obstacles grows by more than one. *)
Theorem spawn_exactly_one_per_crossing (dt : Q) (g : Game.t) :
  Game.started g = true ->
  let speed := speedFor (Game.score g) in
  let spawned := Game.obstacles (spawnPacing dt (gravity dt (difficulty g))) in
  (Game.spawnTimer g - dt <= 0 ->
   exists (o : Obstacle.t) (n : nat),
     let base := 0.75 + Math_random n * (1.35 - 0.75) in
     (Game.draws g < n)%nat
     /\ spawned = Game.obstacles g ++ [o]
     /\ Obstacle.x o = world_w g + 10
     /\ wellFormed o
     /\ Game.obstacles (update dt g)
        = scrollObstacles speed dt (Game.obstacles g ++ [o])
     /\ (0 <= dt -> dt <= 0.033 ->
         0 <= Canvas.clientWidth (Game.canvas g) ->
         Game.obstacles (update dt g)
         = scrollObstacles speed dt (Game.obstacles g)
           ++ [moveObstacle speed dt o])
     /\ Game.spawnTimer (update dt g)
        = base + Math_max 0 ((520 - speed) / 900)
     /\ 0.75 <= base /\ base < 1.35
     /\ base <= Game.spawnTimer (update dt g))
  /\
  (0 < Game.spawnTimer g - dt ->
   spawned = Game.obstacles g
   /\ Game.obstacles (update dt g)
      = scrollObstacles speed dt (Game.obstacles g)
   /\ Game.spawnTimer (update dt g) = Game.spawnTimer g - dt)
  /\
  (List.length (Game.obstacles (update dt g))
   <= S (List.length (Game.obstacles g)))%nat.
Proof.
  intros E speed spawned.
  set (g1 := gravity dt (difficulty g)).
  assert (Ht : Game.spawnTimer g1 = Game.spawnTimer g) by reflexivity.
  assert (Ho : Game.obstacles g1 = Game.obstacles g) by reflexivity.
  assert (Hwait : 0 < Game.spawnTimer g - dt -> spawned = Game.obstacles g).
  { intros H. rewrite <- Ht in H. unfold spawned. fold g1.
    rewrite (spawnPacing_wait dt g1 H). exact Ho. }
  split; [|split].
  - intros H.
    destruct (update_spawn_tick dt g E H)
      as (o & n & Hn & Hobs & Hx & Hwf & Eobs & Hkept & Htimer).
    fold speed in Eobs, Hkept, Htimer.
    exists o, n. cbv zeta.
    destruct (base_interval_range _ (Math_random_range n)) as [Hlo Hhi].
    split; [exact Hn|]. split; [exact Hobs|]. split; [exact Hx|].
    split; [exact Hwf|]. split; [exact Eobs|]. split; [exact Hkept|].
    split; [exact Htimer|]. split; [exact Hlo|]. split; [exact Hhi|].
    rewrite Htimer.
    pose proof (Q.le_max_l 0 ((520 - speed) / 900)) as Hb.
    unfold Math_max. lra.
  - intros H. split; [exact (Hwait H)|].
    rewrite (update_obstacles dt g E), (update_spawnTimer_wait dt g E H).
    change (Game.obstacles (spawnPacing dt (gravity dt (difficulty g))))
      with spawned.
    rewrite (Hwait H). split; reflexivity.
  - rewrite (update_obstacles dt g E).
    change (Game.obstacles (spawnPacing dt (gravity dt (difficulty g))))
      with spawned.
    eapply Nat.le_trans; [apply scrollObstacles_length|].
    destruct (Qlt_le_dec 0 (Game.spawnTimer g - dt)) as [H | H].
    + rewrite (Hwait H). lia.
    + destruct (update_spawn_tick dt g E H) as (o & n & _ & Hobs & _).
      change (Game.obstacles (spawnPacing dt (gravity dt (difficulty g))))
        with spawned in Hobs.
      rewrite Hobs, length_app. cbn [List.length]. lia.
Qed.

(** C10, with the spawn timer as the script treats it.  The delta of a
    frame is min(0.033, max(0, (now - last) / 1000)): it is never negative
    and never more than 0.033, and it is 0 when the timestamp is not later
    than the one remembered, as it can be after the visibility-change
    handler has stored a later one.  So a frame never decreases the score.
    The spawn timer of a running, started session goes down by the delta
    in a frame that leaves it positive.  Otherwise the frame spawns: the
    spawn-pacing block appends one obstacle, the cluster [spawnObstacle]
    makes, which is in the list after the frame when the client width is
    not negative; and the timer is assigned 0.75 + r * (1.35 - 0.75) plus
    the bonus for a draw r not used before, which is at least 0.75 and
    more than the timer was.  Outside such a session a frame leaves the
    timer and the obstacles as they are. *)
Theorem frame_delta_never_negative (now shown : Q) (g : Game.t) :
  let dt := frameDt now (Game.last g) in
  let g' := loop now g in
  let speed := speedFor (Game.score g) in
  dt = Math_min 0.033 (Math_max 0 ((now - Game.last g) / 1000))
  /\ 0 <= dt
  /\ dt <= 0.033
  /\ (now <= Game.last g -> dt == 0)
  /\ (now <= shown ->
      frameDt now (Game.last (handle (VisibilityChange shown) g)) == 0)
  /\ Game.score g <= Game.score g'
  /\ (Game.running g = true -> Game.started g = true ->
      0 < Game.spawnTimer g - dt ->
      Game.spawnTimer g' = Game.spawnTimer g - dt
      /\ Game.spawnTimer g' <= Game.spawnTimer g
      /\ Game.obstacles g' = scrollObstacles speed dt (Game.obstacles g))
  /\ (Game.running g = true -> Game.started g = true ->
      Game.spawnTimer g - dt <= 0 ->
      0.75 <= Game.spawnTimer g'
      /\ Game.spawnTimer g < Game.spawnTimer g'
      /\ exists (o : Obstacle.t) (n : nat),
           (Game.draws g < n)%nat
           /\ Game.obstacles
                (spawnPacing dt
                   (gravity dt (difficulty (Game.set_last now g))))
              = Game.obstacles g ++ [o]
           /\ Obstacle.x o = world_w g + 10
           /\ wellFormed o
           /\ Game.obstacles g'
              = scrollObstacles speed dt (Game.obstacles g ++ [o])
           /\ (0 <= Canvas.clientWidth (Game.canvas g) ->
               Game.obstacles g'
               = scrollObstacles speed dt (Game.obstacles g)
                 ++ [moveObstacle speed dt o])
           /\ Game.spawnTimer g'
              = 0.75 + Math_random n * (1.35 - 0.75)
                + Math_max 0 ((520 - speed) / 900))
  /\ (Game.running g = false \/ Game.started g = false ->
      Game.spawnTimer g' = Game.spawnTimer g
      /\ Game.obstacles g' = Game.obstacles g).
Proof.
  intros dt g' speed.
  pose proof (frameDt_nonneg now (Game.last g)) as Hdt. fold dt in Hdt.
  pose proof (frameDt_le now (Game.last g)) as Hdt'. fold dt in Hdt'.
  split; [reflexivity|].
  split; [exact Hdt|].
  split; [exact Hdt'|].
  split; [apply frameDt_backwards|].
  split; [intros H; apply frameDt_backwards; exact H|].
  subst g'. rewrite loop_eq. fold dt. unfold draw. game_simpl.
  set (g0 := Game.set_last now g).
  split; [|split; [|split]].
  - destruct (Game.running g); [|apply Qle_refl].
    rewrite update_score. change (Game.started g0) with (Game.started g).
    change (Game.score g0) with (Game.score g).
    destruct (Game.started g); [lra | apply Qle_refl].
  - intros -> Es H.
    rewrite (update_spawnTimer_wait dt g0 Es H).
    change (Game.spawnTimer g0) with (Game.spawnTimer g).
    split; [reflexivity|]. split; [lra|].
    rewrite (update_obstacles dt g0 Es).
    rewrite (spawnPacing_wait dt (gravity dt (difficulty g0)) H).
    reflexivity.
  - intros -> Es H.
    split; [apply (update_spawnTimer_spawn dt g0 Es H)|].
    split.
    { pose proof (update_spawnTimer_spawn dt g0 Es H) as Hnew.
      change (Game.spawnTimer g0) with (Game.spawnTimer g) in H. lra. }
    destruct (update_spawn_tick dt g0 Es H)
      as (o & n & Hn & Hobs & Hx & Hwf & Eobs & Hkept & Htimer).
    exists o, n.
    split; [exact Hn|]. split; [exact Hobs|]. split; [exact Hx|].
    split; [exact Hwf|]. split; [exact Eobs|].
    split; [intros Hcw; exact (Hkept Hdt Hdt' Hcw) | exact Htimer].
  - intros [-> | Es]; [split; reflexivity|].
    destruct (Game.running g); [|split; reflexivity].
    unfold update. change (Game.started g0) with (Game.started g).
    rewrite Es. split; reflexivity.
Qed.
End Facts.

(** ** The properties on the sample page *)

Import Sample.

(** C4 on the page after the first key press, and on the scores 0 and 100. *)
Lemma speed_follows_capped_curve_witness :
  Game.speed (update (browser := modern) 0.016 playing)
  = Math_min 520 (260 + Game.score playing * 0.9)
  /\ speedFor 0 <= speedFor 100
  /\ speedFor 100 <= 520
  /\ 260 <= speedFor 0.
Proof.
  destruct (speed_follows_capped_curve (browser := modern)
              0.016 playing 0 100) as (Hupd & Hmono & Hrange).
  split; [apply Hupd; reflexivity|].
  destruct Hmono as [H1 H2]; [reflexivity|].
  destruct Hrange as [H3 _]; [discriminate|].
  exact (conj H1 (conj H2 H3)).
Defined.

(** C5 after a stall of five seconds, with a cactus ahead of the player. *)
Lemma frame_delta_clamped_witness :
  let o := Obstacle.mk 100 140 20 30 [] in
  let dt := frameDt 5000 (Game.last playing) in
  dt <= 1 / 30
  /\ dt == 0.033
  /\ Player.x (Game.player playing)
     < Obstacle.x (moveObstacle (speedFor (Game.score playing)) dt o)
       + Obstacle.w (moveObstacle (speedFor (Game.score playing)) dt o).
Proof.
  intros o dt.
  destruct (frame_delta_clamped (browser := modern) 5000 playing o)
    as (_ & Hle & Hstall & Hpass).
  split; [exact Hle|].
  split; [apply Hstall; reflexivity|].
  apply Hpass; vm_compute; discriminate.
Defined.

(** C2 on a session that runs into a cactus with the score at 99.5. *)
Lemma collision_ends_session_witness :
  let g2 := update (browser := modern) 0.033 crashing in
  Game.started crashing = true
  /\ Game.running g2 = false
  /\ Game.best g2 = 101
  /\ Game.best crashing
     <= Game.best (run (browser := modern) [Frame 33; RestartClick] crashing).
Proof.
  intros g2.
  destruct (collision_ends_session (browser := modern) 0.033 crashing
              [Frame 33; RestartClick]) as (Hhit & _ & Hmono).
  assert (Hs : Game.started crashing = true) by reflexivity.
  destruct (Hhit Hs) as (Hrun & _ & _ & Hnew & _); [vm_compute; reflexivity|].
  destruct Hnew as [Hbest _]; [vm_compute; reflexivity|].
  split; [exact Hs|]. split; [exact Hrun|]. split; [exact Hbest|].
  exact Hmono.
Defined.

(** C6 on the session just lost: a pointer press restarts it. *)
Lemma restart_resets_everything_witness :
  let lost := update (browser := modern) 0.033 crashing in
  Game.started lost = true
  /\ Game.running lost = false
  /\ handle (browser := modern) PointerDown lost
     = restart (browser := modern) lost
  /\ Game.obstacles (restart (browser := modern) lost) = []
  /\ Game.score (restart (browser := modern) lost) = 0
  /\ Game.running (restart (browser := modern) lost) = true.
Proof.
  intros lost.
  assert (Hs : Game.started lost = true) by (vm_compute; reflexivity).
  assert (Hr : Game.running lost = false) by (vm_compute; reflexivity).
  destruct (restart_resets_everything (browser := modern) lost)
    as (Hobs & _ & Hscore & _ & _ & _ & _ & _ & Hrun & _ & _ & _ & _ & Hptr).
  split; [exact Hs|]. split; [exact Hr|].
  split; [exact (Hptr Hs Hr)|].
  exact (conj Hobs (conj Hscore Hrun)).
Defined.

(** C8 in the browser without bounding-box metrics, at 24 pixels. *)
Lemma measureEmoji_scoped_and_total_witness :
  let r := fst (measureEmoji (browser := legacy) CACTUS_EMOJI 24 loaded) in
  Game.ctx_font (snd (measureEmoji (browser := legacy) CACTUS_EMOJI 24 loaded))
  = Game.ctx_font loaded
  /\ Measure.ascent r = 24 * 0.78
  /\ Measure.descent r = 24 * 0.22
  /\ 1 <= Measure.w r
  /\ 1 <= Measure.h r.
Proof.
  intros r.
  destruct (measureEmoji_scoped_and_total (browser := legacy)
              CACTUS_EMOJI 24 loaded)
    as (Hfont & _ & Hasc & Hdesc & _ & _ & Hw & Hh).
  split; [exact Hfont|].
  split; [exact (Hasc eq_refl)|].
  split; [exact (Hdesc eq_refl)|].
  exact (conj Hw Hh).
Defined.

(** C9 with a store that denies access, one without an entry, one with an
    entry that is no number, and a full one at the moment of a new record. *)
Lemma persistence_failures_contained_witness :
  let junk := Storage.mk [(storageKey, "high"%string)] false false in
  let g := Game.set_localStorage (Storage.mk [] false true) crashing in
  Game.best (init (browser := modern) canvas deniedStore 0 1) = 0
  /\ Game.best (init (browser := modern) canvas emptyStore 0 1) = 0
  /\ Game.best (init (browser := modern) canvas junk 0 1) = 0
  /\ Game.best (init (browser := modern) canvas savedStore 0 1) = 41
  /\ Game.best (lose (browser := modern) g) = 99
  /\ Game.localStorage (lose (browser := modern) g) = Game.localStorage g.
Proof.
  intros junk g.
  destruct (persistence_failures_contained (browser := modern)
              canvas deniedStore 0 1 g) as (Hthrow & _ & _ & _ & Hfull & _).
  destruct (persistence_failures_contained (browser := modern)
              canvas emptyStore 0 1 g) as (_ & Hnone & _).
  destruct (persistence_failures_contained (browser := modern)
              canvas junk 0 1 g) as (_ & _ & Hjunk & _).
  destruct (persistence_failures_contained (browser := modern)
              canvas savedStore 0 1 g) as (_ & _ & _ & Hsaved & _).
  split; [exact (Hthrow eq_refl)|].
  split; [exact (Hnone eq_refl)|].
  split; [exact (Hjunk "high"%string eq_refl eq_refl)|].
  split; [exact (Hsaved "41"%string 41 eq_refl eq_refl)|].
  destruct Hfull as (_ & Hbest & Hstore);
    [vm_compute; reflexivity | reflexivity |].
  exact (conj Hbest Hstore).
Defined.

(** C10 as the specification has it fails: the first frame of a session is a
    tick of a running, started session, its delta is not negative, and it
    takes the spawn timer from 0 to more than a second. *)
Lemma spawnTimer_increases_when_spawning :
  Game.running playing = true
  /\ Game.started playing = true
  /\ 0 <= frameDt 16 (Game.last playing)
  /\ ~ (Game.spawnTimer (loop (browser := modern) 16 playing)
        <= Game.spawnTimer playing).
Proof.
  split; [reflexivity|]. split; [reflexivity|]. split; [discriminate|].
  intros H. vm_compute in H. apply H. reflexivity.
Defined.

(** C7 on the first tick of a session: the timer starts at 0, one cluster is
    appended and is in the list after the tick. *)
Lemma spawn_exactly_one_per_crossing_witness :
  Game.started playing = true
  /\ Game.spawnTimer playing - 0.016 <= 0
  /\ exists (o : Obstacle.t),
       Game.obstacles
         (spawnPacing (browser := modern) 0.016
            (gravity 0.016 (difficulty playing)))
       = Game.obstacles playing ++ [o]
       /\ Game.obstacles (update (browser := modern) 0.016 playing)
          = scrollObstacles (speedFor (Game.score playing)) 0.016
              (Game.obstacles playing)
            ++ [moveObstacle (speedFor (Game.score playing)) 0.016 o]
       /\ 0.75 <= Game.spawnTimer (update (browser := modern) 0.016 playing).
Proof.
  assert (Hs : Game.started playing = true) by reflexivity.
  assert (Ht : Game.spawnTimer playing - 0.016 <= 0) by discriminate.
  split; [exact Hs|]. split; [exact Ht|].
  destruct (spawn_exactly_one_per_crossing (browser := modern)
              0.016 playing Hs) as (Hspawn & _ & _).
  destruct (Hspawn Ht)
    as (o & n & _ & Happ & _ & _ & _ & Hkept & _ & Hlo & _ & Hle).
  exists o. split; [exact Happ|].
  split; [apply Hkept; discriminate|].
  eapply Qle_trans; [exact Hlo | exact Hle].
Defined.

(** C10 on a frame whose timestamp lies before the remembered one, on a
    frame that leaves the spawn timer positive, and on the first frame of
    a session, which spawns. *)
Lemma frame_delta_never_negative_witness :
  let back := Game.set_last 5000 playing in
  let waiting := Game.set_spawnTimer 1 playing in
  frameDt 16 (Game.last back) == 0
  /\ frameDt 16
       (Game.last (handle (browser := modern) (VisibilityChange 40) playing))
     == 0
  /\ Game.score back <= Game.score (loop (browser := modern) 16 back)
  /\ Game.spawnTimer (loop (browser := modern) 16 waiting)
     <= Game.spawnTimer waiting
  /\ 0.75 <= Game.spawnTimer (loop (browser := modern) 16 playing)
  /\ exists (o : Obstacle.t),
       Game.obstacles (loop (browser := modern) 16 playing)
       = scrollObstacles (speedFor (Game.score playing))
           (frameDt 16 (Game.last playing)) (Game.obstacles playing)
         ++ [moveObstacle (speedFor (Game.score playing))
               (frameDt 16 (Game.last playing)) o].
Proof.
  intros back waiting.
  destruct (frame_delta_never_negative (browser := modern) 16 40 back)
    as (_ & _ & _ & Hback & _ & Hscore & _).
  destruct (frame_delta_never_negative (browser := modern) 16 40 waiting)
    as (_ & _ & _ & _ & _ & _ & Hwait & _).
  destruct (frame_delta_never_negative (browser := modern) 16 40 playing)
    as (_ & _ & _ & _ & Hshown & _ & _ & Hspawn & _).
  split; [apply Hback; discriminate|].
  split; [apply Hshown; discriminate|].
  split; [exact Hscore|].
  split; [apply Hwait; reflexivity|].
  destruct Hspawn as (Hnew & _ & o & n & _ & _ & _ & _ & _ & Hkept & _);
    [reflexivity | reflexivity | discriminate |].
  split; [exact Hnew|].
  exists o. apply Hkept. discriminate.
Defined.

(** C2 as the specification has it fails: in the tick that ends the sample
    session the sparks are put on the right edge of the player's box, the
    edge that meets the obstacles, 6 pixels above its lower edge; so
    neither at the left edge nor on the lower edge, and at no corner of the
    box. *)
Lemma sparks_not_at_the_trailing_bottom_corner :
  let g2 := update (browser := modern) 0.033 crashing in
  let p := Game.player g2 in
  let s := nth 0 (Game.sparks g2) (Spark.mk 0 0 0 0) in
  In s (Game.sparks g2)
  /\ Spark.x s == Player.x p + Player.w p
  /\ Spark.y s == Player.y p + Player.h p - 6
  /\ ~ Spark.x s == Player.x p
  /\ ~ Spark.y s == Player.y p + Player.h p
  /\ ~ (Spark.x s == Player.x p /\ Spark.y s == Player.y p + Player.h p).
Proof.
  intros g2 p s.
  split; [vm_compute; left; reflexivity|].
  split; [vm_compute; reflexivity|].
  split; [vm_compute; reflexivity|].
  split; [vm_compute; discriminate|].
  split; [vm_compute; discriminate|].
  intros [H _]. revert H. vm_compute. discriminate.
Defined.

(** ** The further properties on the sample page *)

(** X2 on the tick after the first jump: the player is in the air. *)
Lemma tick_integrates_gravity_and_lands_witness :
  let p := Game.player playing in
  let p' := Game.player (update (browser := modern) 0.016 playing) in
  Game.started playing = true
  /\ Player.vy p' = Player.vy p + 1200 * 0.016
  /\ Player.onGround p' = Player.onGround p
  /\ Player.y p' + Player.h p'
     <= groundY (update (browser := modern) 0.016 playing).
Proof.
  intros p p'.
  assert (Hs : Game.started playing = true) by reflexivity.
  destruct (tick_integrates_gravity_and_lands (browser := modern)
              0.016 playing Hs) as (_ & Hfly & Hfeet & _).
  destruct Hfly as (_ & Hvy & Hon); [vm_compute; reflexivity|].
  exact (conj Hs (conj Hvy (conj Hon Hfeet))).
Defined.

(** X3 on a key that means nothing, and on the first pointer press. *)
Lemma input_routed_by_state_witness :
  handle (browser := modern) (KeyDown "x") playing = playing
  /\ Game.started loaded = false
  /\ handle (browser := modern) PointerDown loaded
     = Game.set_started true loaded.
Proof.
  destruct (input_routed_by_state (browser := modern) "x" playing)
    as (_ & Hother & _).
  destruct (input_routed_by_state (browser := modern) "x" loaded)
    as (_ & _ & _ & _ & _ & Hptr & _).
  split; [apply Hother; reflexivity|].
  split; [reflexivity|]. apply Hptr. reflexivity.
Defined.

(** X4 on the frame in which the sample session is lost. *)
Lemma session_ends_in_a_frame_and_resumes_by_restart_witness :
  Game.running crashing = true
  /\ Game.running (handle (browser := modern) (Frame 33) crashing) = false
  /\ exists now, Frame 33 = Frame now /\ Game.started crashing = true.
Proof.
  assert (Hr : Game.running crashing = true) by reflexivity.
  assert (Hr' : Game.running (handle (browser := modern) (Frame 33) crashing)
                = false) by (vm_compute; reflexivity).
  destruct (session_ends_in_a_frame_and_resumes_by_restart
              (browser := modern) (Frame 33) [] crashing) as (_ & Hend & _).
  exact (conj Hr (conj Hr' (Hend Hr Hr'))).
Defined.

(** X5 on the sample cactus, 8.58 pixels further left after the block. *)
Lemma scroll_shifts_and_culls_witness :
  let o' := Obstacle.mk (50 - 260 * 0.033) 140 20 30 [] in
  In o' (scrollObstacles 260 0.033 [cactus]).
Proof.
  intro o'.
  apply (proj2 (proj1 (scroll_shifts_and_culls 260 0.033 [cactus] [] o'))).
  exists cactus. split; [left; reflexivity|].
  split; [reflexivity | vm_compute; reflexivity].
Defined.

(** X6 with a count of 100, and with reduced motion asked for. *)
Lemma addSpark_clamps_count_witness :
  (exists added : list Spark.t,
      Game.sparks (addSpark (browser := modern) 0 0 100 playing)
      = Game.sparks playing ++ added
      /\ List.length added = 16%nat)
  /\ addSpark (browser := legacy) 0 0 100 playing = playing.
Proof.
  destruct (addSpark_clamps_count (browser := modern) 0 0 100 playing)
    as (_ & Hmotion).
  destruct (addSpark_clamps_count (browser := legacy) 0 0 100 playing)
    as (Hreduced & _).
  split; [|exact (Hreduced eq_refl)].
  destruct (Hmotion eq_refl) as (added & E & Hlen & _).
  exists added. rewrite E. split; [reflexivity|].
  apply Nat2Z.inj. rewrite Hlen. reflexivity.
Defined.

(** X7 on the sparks of the lost sample session. *)
Lemma drift_shrinks_and_culls_witness :
  let g := lose (browser := modern) crashing in
  let s' := nth 0 (Game.sparks (driftSparks (browser := modern) 0.033 g))
              (Spark.mk 0 0 0 0) in
  In s' (Game.sparks (driftSparks (browser := modern) 0.033 g))
  /\ 0.25 < Spark.r s'.
Proof.
  intros g s'.
  assert (Hin : In s' (Game.sparks (driftSparks (browser := modern) 0.033 g)))
    by (vm_compute; left; reflexivity).
  destruct (drift_shrinks_and_culls (browser := modern) 0.033 g s')
    as (Hkept & _).
  exact (conj Hin (proj1 (Hkept Hin))).
Defined.


(** X9 on the running face. *)
Lemma reset_is_idempotent_witness :
  let m := measured (browser := modern) PLAYER_EMOJI_RUN
             (Player.fontPx (Game.player crashing)) in
  reset (browser := modern) (reset (browser := modern) crashing)
  = reset (browser := modern) crashing
  /\ Measure.w m * 0.92
     <= Player.w (Game.player (reset (browser := modern) crashing)).
Proof.
  intro m.
  destruct (reset_is_idempotent (browser := modern) crashing PLAYER_EMOJI_RUN)
    as (Hidem & _ & _ & _ & Hface & _).
  split; [exact Hidem|].
  apply Hface. right. left. reflexivity.
Defined.

(** X11 on the sample canvas, which reports a height of 200. *)
Lemma world_size_never_zero_witness :
  world_w loaded = 640 /\ world_h loaded = 200.
Proof.
  destruct (world_size_never_zero loaded) as (_ & _ & Hw & _ & Hh & _).
  split; [apply Hw; discriminate|].
  apply Hh; reflexivity.
Defined.

(** X12 on the sample canvas: a second resize changes nothing. *)
Lemma resize_refits_and_regrounds_witness :
  ~ Canvas.clientWidth (Game.canvas playing) == 0
  /\ onResize 2 (onResize 2 playing) = onResize 2 playing.
Proof.
  assert (H : ~ Canvas.clientWidth (Game.canvas playing) == 0)
    by discriminate.
  split; [exact H|].
  destruct (resize_refits_and_regrounds 2 playing)
    as (_ & _ & _ & _ & _ & _ & _ & _ & _ & _ & _ & _ & _ & _ & Hidem).
  exact (Hidem H).
Defined.

(** X13 on a session lost at the score 41.2, with an empty store. *)
Lemma written_best_is_read_back_witness :
  let g := Game.set_score 41.2 crashing in
  Game.best (init (browser := modern) canvas
               (Game.localStorage (lose (browser := modern) g)) 0 1)
  = 41.
Proof.
  intro g.
  assert (Hlt : Game.best g < inject_Z (Math_floor (Game.score g)))
    by reflexivity.
  destruct (written_best_is_read_back (browser := modern) g canvas 0 1
              Hlt eq_refl eq_refl eq_refl) as (_ & Hinit & Hbest).
  rewrite Hinit, Hbest. reflexivity.
Defined.

(** X14 on the shadow under the player: a pill 6 high. *)
Lemma roundRect_radius_clamped_witness :
  exists rr : Q,
    roundRect 48 181 26 6 999
    = [ beginPath; moveTo (48 + rr) 181;
        arcTo (48 + 26) 181 (48 + 26) (181 + 6) rr;
        arcTo (48 + 26) (181 + 6) 48 (181 + 6) rr;
        arcTo 48 (181 + 6) 48 181 rr;
        arcTo 48 181 (48 + 26) 181 rr;
        closePath ]
    /\ 0 <= rr /\ 2 * rr <= 6.
Proof.
  destruct (roundRect_radius_clamped 48 181 26 6 999)
    as (rr & E & H0 & _ & Hhalf & _).
  exists rr. split; [exact E|]. split; [exact H0|].
  apply Hhalf; discriminate.
Defined.

(** X15 on the page started by a pointer press, the player on the ground. *)
Lemma jump_lifts_the_player_witness :
  let g := handle (browser := modern) PointerDown loaded in
  let g' := update (browser := modern) 0.016
              (handle (browser := modern) (KeyDown " ") g) in
  Player.onGround (Game.player g) = true
  /\ Player.onGround (Game.player g') = false
  /\ Player.y (Game.player g') < Player.y (Game.player g).
Proof.
  intros g g'.
  assert (Hon : Player.onGround (Game.player g) = true) by reflexivity.
  split; [exact Hon|].
  assert (Hfeet : Player.y (Game.player g) + Player.h (Game.player g)
                  <= groundY g) by (vm_compute; discriminate).
  assert (Hdt : 0.016 <= 0.033) by discriminate.
  destruct (jump_lifts_the_player (browser := modern) 0.016 g
              eq_refl eq_refl Hon Hfeet eq_refl Hdt)
    as (_ & _ & _ & Hup & _ & Hair & _).
  exact (conj Hair Hup).
Defined.

(** X19 and X20 on the page before the first input, two frames on. *)
Lemma sparks_only_after_loss_witness :
  Game.sparks
    (run (browser := modern) [Frame 16; Frame 32]
       (init (browser := modern) canvas emptyStore 0 1)) = [].
Proof.
  destruct (sparks_only_after_loss (browser := modern) canvas emptyStore 0 1
              [Frame 16; Frame 32]) as (Hrun & _).
  apply Hrun. vm_compute. reflexivity.
Defined.

Lemma nothing_happens_before_the_start_witness :
  let g := run (browser := modern) [Frame 16; Frame 32]
             (init (browser := modern) canvas emptyStore 0 1) in
  Game.started g = false /\ Game.score g = 0 /\ Game.obstacles g = [].
Proof.
  intro g.
  assert (Hs : Game.started g = false) by (vm_compute; reflexivity).
  destruct (nothing_happens_before_the_start (browser := modern)
              canvas emptyStore 0 1 [Frame 16; Frame 32] Hs)
    as (_ & Hscore & _ & _ & Hobs & _).
  exact (conj Hs (conj Hscore Hobs)).
Defined.

(** X21 on a restart after the record of 101 was written. *)
Lemma only_a_losing_frame_writes_the_best_witness :
  let lost := update (browser := modern) 0.033 crashing in
  Game.best (handle (browser := modern) RestartClick lost) = Game.best lost
  /\ Game.localStorage (handle (browser := modern) RestartClick lost)
     = Game.localStorage lost.
Proof.
  intro lost.
  apply (only_a_losing_frame_writes_the_best (browser := modern)
           RestartClick lost).
  left. intros now. discriminate.
Defined.
